(** * Alpha3 back-test notebook (Task_3/Task3.ipynb): model and properties

    The notebook loads OHLCV bars from CSV files, runs the [Alpha3Strategy]
    (rank correlation of open against volume over a look-back window) in a
    bar-by-bar engine and prints a performance report.

    Numbers.  The notebook computes on IEEE doubles.  Here a double is an
    extended real: a real number, one of the two infinities, or NaN.  The
    arithmetic is exact (rounding and the sign of zero are not modelled);
    what is kept is everything the control flow of the notebook depends on:
    NaN is produced by 0/0, inf-inf, 0*inf and the square root of a negative
    number, it propagates through arithmetic, and every ordered comparison
    with NaN is false while [!=] with NaN is true.

    Libraries.  The notebook calls Python builtins, numpy, pandas and
    backtrader.  The parts of those libraries that the notebook relies on
    are written out in the modules [Py], [Np], [Pd] and [Bt] below, each
    definition with the call it stands for.

    Engine.  The strategy reads [self.data], the first feed, and
    [self.position], the position on that feed.  The engine is modelled
    from that feed's side: a clock over the bar times of all feeds, market
    orders that wait until the first feed moves to its next bar, a broker
    that may reject an order for want of cash. *)

From Stdlib Require Import String Ascii Reals Lra Lia ZArith Bool Arith List.
From Stdlib Require Import Permutation Sorted.
Import ListNotations.

(* ================================================================== *)
(** ** Doubles as extended reals *)

Inductive num : Type :=
| NaN
| NInf
| Fin (r : R)
| PInf.

Definition Rltb (x y : R) : bool := if Rlt_dec x y then true else false.
Definition Reqb (x y : R) : bool := if Req_dec_T x y then true else false.

Module F.

Definition isnan (a : num) : bool :=
  match a with NaN => true | _ => false end.

(** [a < b] *)
Definition ltb (a b : num) : bool :=
  match a, b with
  | NaN, _ | _, NaN => false
  | Fin x, Fin y => Rltb x y
  | NInf, NInf => false
  | NInf, _ => true
  | _, NInf => false
  | PInf, _ => false
  | Fin _, PInf => true
  end.

(** [a > b] *)
Definition gtb (a b : num) : bool := ltb b a.

(** [a == b] *)
Definition eqb (a b : num) : bool :=
  match a, b with
  | Fin x, Fin y => Reqb x y
  | NInf, NInf => true
  | PInf, PInf => true
  | _, _ => false
  end.

(** [a != b]: true as soon as one side is NaN *)
Definition neb (a b : num) : bool := negb (eqb a b).

Definition neg (a : num) : num :=
  match a with
  | NaN => NaN
  | NInf => PInf
  | Fin x => Fin (- x)
  | PInf => NInf
  end.

Definition add (a b : num) : num :=
  match a, b with
  | NaN, _ | _, NaN => NaN
  | Fin x, Fin y => Fin (x + y)
  | NInf, PInf | PInf, NInf => NaN
  | NInf, _ | _, NInf => NInf
  | PInf, _ | _, PInf => PInf
  end.

Definition sub (a b : num) : num := add a (neg b).

(** the infinity with the sign of [x], NaN when [x = 0] *)
Definition inf_signed (x : R) : num :=
  if Reqb x 0 then NaN else if Rltb 0 x then PInf else NInf.

Definition mul (a b : num) : num :=
  match a, b with
  | NaN, _ | _, NaN => NaN
  | Fin x, Fin y => Fin (x * y)
  | Fin x, PInf | PInf, Fin x => inf_signed x
  | Fin x, NInf | NInf, Fin x => inf_signed (- x)
  | PInf, PInf | NInf, NInf => PInf
  | PInf, NInf | NInf, PInf => NInf
  end.

Definition div (a b : num) : num :=
  match a, b with
  | NaN, _ | _, NaN => NaN
  | Fin x, Fin y => if Reqb y 0 then inf_signed x else Fin (x / y)
  | Fin _, (PInf | NInf) => Fin 0
  | PInf, Fin y => if Rltb y 0 then NInf else PInf
  | NInf, Fin y => if Rltb y 0 then PInf else NInf
  | (PInf | NInf), (PInf | NInf) => NaN
  end.

Definition sqrt (a : num) : num :=
  match a with
  | NaN | NInf => NaN
  | Fin x => if Rltb x 0 then NaN else Fin (R_sqrt.sqrt x)
  | PInf => PInf
  end.

(** a Python [int] used in float arithmetic *)
Definition of_nat (n : nat) : num := Fin (INR n).

End F.

(* ================================================================== *)
(** ** Exceptions *)

(** Why [load_stock_data] raised [KeyError]. *)
Inductive key_error : Type :=
| NoTimeColumn (file_path : string)
| MissingColumns (missing_columns : list string) (file_path : string).

Inductive exn : Type :=
| KeyError (why : key_error)
| ValueError
| IndexError
| AttributeError.

Inductive result (A : Type) : Type :=
| Ok (a : A)
| Raise (e : exn).

Arguments Ok {A} a.
Arguments Raise {A} e.

Definition bind {A B : Type} (m : result A) (k : A -> result B) : result B :=
  match m with
  | Ok a => k a
  | Raise e => Raise e
  end.

Notation "x <- m ;; k" := (bind m (fun x => k))
  (at level 61, m at next level, right associativity).

(** A list comprehension whose element expression can raise: the first
    exception ends the comprehension. *)
Fixpoint mapM {A B : Type} (f : A -> result B) (l : list A) : result (list B) :=
  match l with
  | [] => Ok []
  | a :: l' => b <- f a ;; bs <- mapM f l' ;; Ok (b :: bs)
  end.

(* ================================================================== *)
(** ** Python builtins *)

Module Py.

(** [range(n)] *)
Definition range (n : nat) : list nat := seq 0 n.

(** [l[i]] on a list or an [array.array]: a negative index counts from
    the end, anything outside [-len, len) raises [IndexError]. *)
Definition index {A : Type} (l : list A) (i : Z) : result A :=
  let n := Z.of_nat (length l) in
  let j := (if i <? 0 then n + i else i)%Z in
  if (j <? 0)%Z then Raise IndexError
  else match nth_error l (Z.to_nat j) with
       | Some a => Ok a
       | None => Raise IndexError
       end.

(** the scan of [min(iterable)]: the running item is replaced by a later
    one when [item < running] *)
Definition min_scan (first : num) (rest : list num) : num :=
  fold_left (fun cur item => if F.ltb item cur then item else cur) rest first.

Definition max_scan (first : num) (rest : list num) : num :=
  fold_left (fun cur item => if F.gtb item cur then item else cur) rest first.

(** [min(iterable)]; an empty iterable raises [ValueError] *)
Definition min (l : list num) : result num :=
  match l with
  | [] => Raise ValueError
  | x :: rest => Ok (min_scan x rest)
  end.

(** [max(iterable)] *)
Definition max (l : list num) : result num :=
  match l with
  | [] => Raise ValueError
  | x :: rest => Ok (max_scan x rest)
  end.

(** [max(a, b)] *)
Definition max2 (a b : num) : num := max_scan a [b].

End Py.

(* ================================================================== *)
(** ** numpy *)

Module Np.

(** [np.sum(a)] *)
Definition sum (a : list num) : num := fold_left F.add a (Fin 0).

(** [np.mean(a)]: the sum over the number of items; NaN on an empty
    array (0/0, with a warning and no exception) *)
Definition mean (a : list num) : num :=
  F.div (sum a) (F.of_nat (length a)).

(** [np.var(a)], [ddof = 0]: mean of the squared deviations *)
Definition var (a : list num) : num :=
  let arrmean := mean a in
  let x := map (fun v => F.sub v arrmean) a in
  let x := map (fun d => F.mul d d) x in
  F.div (sum x) (F.of_nat (length a)).

(** [np.std(a)] *)
Definition std (a : list num) : num := F.sqrt (var a).

(** [np.clip(c, lo, hi)] = [minimum(maximum(c, lo), hi)]; NaN stays NaN *)
Definition clip (c lo hi : num) : num :=
  if F.isnan c then NaN
  else
    let c := if F.ltb c lo then lo else c in
    if F.gtb c hi then hi else c.

(** [np.dot(x, y)] of two vectors of one length *)
Definition dot (x y : list num) : num :=
  sum (map (fun p => F.mul (fst p) (snd p)) (combine x y)).

(** [np.corrcoef(x, y)[0, 1]].  [np.cov] subtracts the row means, forms
    the products and scales them by [1 / fact] with [fact = n - 1]
    (0 when that is not positive); [corrcoef] divides by the two
    standard deviations, one after the other, and clips to [-1, 1]. *)
Definition corrcoef (x y : list num) : num :=
  let n := length x in
  let fact := F.of_nat (n - 1) in
  let dx := map (fun v => F.sub v (mean x)) x in
  let dy := map (fun v => F.sub v (mean y)) y in
  let scale := F.div (Fin 1) fact in
  let c00 := F.mul (dot dx dx) scale in
  let c01 := F.mul (dot dx dy) scale in
  let c11 := F.mul (dot dy dy) scale in
  let c := F.div (F.div c01 (F.sqrt c00)) (F.sqrt c11) in
  clip c (Fin (-1)) (Fin 1).

End Np.

(* ================================================================== *)
(** ** pandas *)

Module Pd.

Definition count_if {A : Type} (p : A -> bool) (l : list A) : nat :=
  length (filter p l).

(** [Series.rank()] with its defaults ([method='average'],
    [na_option='keep'], ascending).  In sorted order a value [v] with
    [lt] smaller values and [dups] equal ones occupies the positions
    [lt + 1 .. lt + dups]; every one of the equal values receives the
    sum of those positions divided by [dups].  NaN keeps NaN and is
    counted by nobody. *)
Definition rank (s : list num) : list num :=
  map (fun v =>
         if F.isnan v then NaN
         else
           let lt := count_if (fun w => F.ltb w v) s in
           let dups := count_if (fun w => F.eqb w v) s in
           let sum_ranks :=
             Np.sum (map (fun k => F.of_nat (lt + 1 + k)) (Py.range dups)) in
           F.div sum_ranks (F.of_nat dups))
      s.

(** [Series.corr(other)] with its defaults ([method='pearson'],
    [min_periods=1]) on two series with the same index: the pairs with
    a NaN on either side are dropped, no pair left gives NaN, otherwise
    [np.corrcoef(a, b)[0, 1]]. *)
Definition corr (s other : list num) : num :=
  let valid :=
    filter (fun p => negb (F.isnan (fst p)) && negb (F.isnan (snd p)))
           (combine s other) in
  let a := map fst valid in
  let b := map snd valid in
  if (length a <? 1)%nat then NaN else Np.corrcoef a b.

(** A CSV cell of a time column, by the way pandas reads it. *)
Inductive cell : Type :=
| Digits (n : N)        (* only digits ([str(x).isdigit()]), a time in range *)
| Stamp (t : Z)         (* a date or time text that [to_datetime] parses *)
| Other (s : string).   (* anything else *)

Definition isdigit (c : cell) : bool :=
  match c with Digits _ => true | _ => false end.

(** what [pd.read_csv] returns: the header and, per column, the cells *)
Record DataFrame : Type := {
  columns : list string;
  values : string -> list cell;
}.

(** [pd.to_datetime(col, unit='ms')]: epoch milliseconds *)
Definition to_datetime_ms (col : list cell) : result (list Z) :=
  mapM (fun c => match c with
                 | Digits n => Ok (Z.of_N n)
                 | Stamp _ | Other _ => Raise ValueError
                 end) col.

(** [pd.to_datetime(col)]: a cell that is no date raises [ValueError]
    (the default [errors='raise']) *)
Definition to_datetime (col : list cell) : result (list Z) :=
  mapM (fun c => match c with
                 | Digits n => Ok (Z.of_N n)
                 | Stamp t => Ok t
                 | Other _ => Raise ValueError
                 end) col.

(** [col in df.columns] *)
Definition has_column (df : DataFrame) (col : string) : bool :=
  existsb (String.eqb col) (columns df).

End Pd.

(* ================================================================== *)
(** ** Loading *)

(** A frame after [df.set_index('timestamp', inplace=True)]: the time
    index and the remaining columns. *)
Record IndexedFrame : Type := {
  index : list Z;
  frame_columns : list string;
  frame_values : string -> list Pd.cell;
}.

Definition required_columns : list string :=
  ["open"; "high"; "low"; "close"; "volume"]%string.

(** [load_stock_data(file_path)], from the frame [pd.read_csv(file_path)]
    returned. *)
Definition load_stock_data (file_path : string) (df : Pd.DataFrame)
  : result IndexedFrame :=
  timestamp <-
    (if Pd.has_column df "timestamp" then
       if forallb Pd.isdigit (Pd.values df "timestamp") then
         Pd.to_datetime_ms (Pd.values df "timestamp")
       else
         Pd.to_datetime (Pd.values df "timestamp")
     else if Pd.has_column df "date" then
       Pd.to_datetime (Pd.values df "date")
     else
       Raise (KeyError (NoTimeColumn file_path))) ;;
  (* df.set_index('timestamp', inplace=True) *)
  let cols := filter (fun c => negb (String.eqb c "timestamp")) (Pd.columns df) in
  let missing_columns :=
    filter (fun col => negb (existsb (String.eqb col) cols)) required_columns in
  match missing_columns with
  | _ :: _ => Raise (KeyError (MissingColumns missing_columns file_path))
  | [] => Ok {| index := timestamp; frame_columns := cols;
                frame_values := Pd.values df |}
  end.

(** What the notebook prints. *)
Inductive line : Type :=
| Loading (file_path : string)
| Skipping (file_path : string) (e : key_error)
| PrintF (label : string) (v : num)      (* a ['%.2f'] field *)
| PrintD (label : string) (n : nat).     (* a ['%d'] field *)

(** [s.endswith(suffix)] *)
Definition endswith (s suffix : string) : bool :=
  let n := String.length s in
  let m := String.length suffix in
  (m <=? n)%nat && String.eqb (substring (n - m) m s) suffix.

(** The loading loop of [run_alpha3_backtest_portfolio] over the files
    that [os.walk] lists, each with the frame [pd.read_csv] reads from it:
    the printed lines, and the frames handed to [cerebro.adddata] or the
    exception that ended the loop.  Only [KeyError] is caught. *)
Fixpoint load_feeds (files : list (string * Pd.DataFrame))
  : list line * result (list IndexedFrame) :=
  match files with
  | [] => ([], Ok [])
  | (file_path, df) :: rest =>
      if endswith file_path "1h.csv" then
        match load_stock_data file_path df with
        | Raise (KeyError e) =>
            let (out, r) := load_feeds rest in
            (Loading file_path :: Skipping file_path e :: out, r)
        | Raise e => ([Loading file_path], Raise e)
        | Ok loaded =>
            let (out, r) := load_feeds rest in
            (Loading file_path :: out, feeds <- r ;; Ok (loaded :: feeds))
        end
      else load_feeds rest
  end.

(* ================================================================== *)
(** ** backtrader *)

Module Bt.

Record Bar : Type := {
  open : num;
  high : num;
  low : num;
  close : num;
  volume : num;
}.

(** A data feed under [cerebro.run()] with its defaults: the feed is
    preloaded, so each line's array holds the whole series, and [idx] is
    the position of the current bar. *)
Record DataFeed : Type := {
  bars : list Bar;
  idx : Z;
}.

(** [LineBuffer.__getitem__(ago)] is [self.array[self.idx + ago]] on a
    Python array. *)
Definition line (field : Bar -> num) (data : DataFeed) (ago : Z) : result num :=
  Py.index (map field (bars data)) (idx data + ago).

Inductive Order : Type := Buy | Sell.

(** The effect on the position's size of a market order of the default
    sizer (one unit) that the broker executes. *)
Definition fill (position : Z) (o : Order) : Z :=
  match o with
  | Buy => (position + 1)%Z
  | Sell => (position - 1)%Z
  end.

End Bt.

(* ================================================================== *)
(** ** Alpha3Strategy *)

Record Alpha3Strategy : Type := {
  lookback_period : nat;
  data : Bt.DataFeed;
  position : Z;                  (* size of [self.position] *)
}.

Definition default_lookback_period : nat := 10.

(** The first half of [next]: the value of the local [alpha_signal]. *)
Definition alpha_signal (self : Alpha3Strategy) : result num :=
  opens <- mapM (fun i => Bt.line Bt.open (data self) (- Z.of_nat i))
                (Py.range (lookback_period self)) ;;
  volumes <- mapM (fun i => Bt.line Bt.volume (data self) (- Z.of_nat i))
                  (Py.range (lookback_period self)) ;;
  let open_rank := Pd.rank opens in
  let volume_rank := Pd.rank volumes in
  let correlation := Pd.corr open_rank volume_rank in
  Ok (F.mul (Fin (-1)) correlation).

(** [bool(self.position)] *)
Definition in_position (position : Z) : bool := negb (position =? 0)%Z.

(** The second half of [next]: the two [if] statements, in order, and the
    orders they issue. *)
Definition orders_for (alpha_signal : num) (position : Z) : list Bt.Order :=
  (if F.ltb alpha_signal (Fin (-0.5)) then
     if negb (in_position position) then [Bt.Buy] else []
   else [])
  ++
  (if F.gtb alpha_signal (Fin 0.5) then
     if in_position position then [Bt.Sell] else []
   else []).

Definition next (self : Alpha3Strategy) : result (list Bt.Order) :=
  alpha <- alpha_signal self ;;
  Ok (orders_for alpha (position self)).

(** The strategy on the first bar of a feed, before any order. *)
Definition start (lookback : nat) (bars : list Bt.Bar) : Alpha3Strategy :=
  {| lookback_period := lookback;
     data := {| Bt.bars := bars; Bt.idx := 0 |};
     position := 0 |}.

(** *** The engine

    [cerebro.run()] with its defaults preloads every feed and then moves a
    clock over the bar times of all feeds, each time once, in time order.
    At each time the feeds that have a bar at that time move to it; the
    broker executes the market orders that wait on a feed which has moved
    since they were issued, or rejects them when the cash does not cover
    them; and [next] is called, once every feed has delivered a bar.  An
    order issued on the last bar of its feed waits for ever.

    The strategy only deals with the first feed ([self.data],
    [self.position], and [self.buy()], [self.sell()] without a [data]
    argument), so a tick of the clock is described by what it means for
    that feed. *)
Record Tick : Type := {
  moved : bool;            (* the first feed has a bar at this time *)
  ready : bool;            (* every feed has delivered a bar: [next] is called *)
  funded : nat -> bool;    (* the cash covers the k-th order that waits *)
}.

Record Engine : Type := {
  strategy : Alpha3Strategy;
  waiting : list Bt.Order;   (* orders issued and not yet executed *)
}.

(** The broker goes through the waiting orders, oldest first; the first has
    number [k]. *)
Fixpoint execute (funded : nat -> bool) (k : nat) (orders : list Bt.Order)
  (position : Z) : Z :=
  match orders with
  | [] => position
  | o :: rest =>
      execute funded (S k) rest (if funded k then Bt.fill position o else position)
  end.

(** The first part of a tick, before [next]: when the first feed has a
    bar at this time it moves to it and the broker deals with the orders
    that wait; otherwise nothing changes for the strategy. *)
Definition arrive (t : Tick) (e : Engine) : Engine :=
  if moved t then
    {| strategy :=
         {| lookback_period := lookback_period (strategy e);
            data := {| Bt.bars := Bt.bars (data (strategy e));
                       Bt.idx := Bt.idx (data (strategy e)) + 1 |};
            position := execute (funded t) 0 (waiting e) (position (strategy e)) |};
       waiting := [] |}
  else e.

(** One tick of the clock.  The orders that [next] issues join the orders
    that wait; they are returned too. *)
Definition on_tick (t : Tick) (e : Engine) : result (list Bt.Order * Engine) :=
  let e' := arrive t e in
  if ready t then
    issued <- next (strategy e') ;;
    Ok (issued, {| strategy := strategy e'; waiting := waiting e' ++ issued |})
  else Ok ([], e').

(** The engine before the first tick: the feed stands before its first
    bar. *)
Definition boot (lookback : nat) (bars : list Bt.Bar) : Engine :=
  {| strategy := {| lookback_period := lookback;
                    data := {| Bt.bars := bars; Bt.idx := -1 |};
                    position := 0 |};
     waiting := [] |}.

(** The engine over the ticks of a run: every order issued, oldest first,
    and the engine afterwards. *)
Fixpoint run_ticks (ticks : list Tick) (e : Engine)
  : result (list Bt.Order * Engine) :=
  match ticks with
  | [] => Ok ([], e)
  | t :: rest =>
      r <- on_tick t e ;;
      r' <- run_ticks rest (snd r) ;;
      Ok (fst r ++ fst r', snd r')
  end.

(** The clock: the bar times of all feeds, each once, in time order. *)
Fixpoint insert_time (dt : Z) (times : list Z) : list Z :=
  match times with
  | [] => [dt]
  | t :: rest =>
      if (dt <? t)%Z then dt :: times
      else if (dt =? t)%Z then times
      else t :: insert_time dt rest
  end.

Definition clock (feeds : list (list Z)) : list Z :=
  fold_right insert_time [] (concat feeds).

(** The ticks of a run on feeds given by their bar times, the first feed
    first; [cash dt k] tells whether the cash covers the k-th order that
    waits at time [dt]. *)
Definition ticks_of (feeds : list (list Z)) (cash : Z -> nat -> bool) : list Tick :=
  map (fun dt =>
         {| moved := existsb (Z.eqb dt) (hd [] feeds);
            ready := forallb (existsb (fun t => (t <=? dt)%Z)) feeds;
            funded := cash dt |})
      (clock feeds).

(** The ticks of a run on one feed of [n] bars: the feed moves at every
    tick and [next] is called on every bar. *)
Definition one_feed (n : nat) (cash : nat -> nat -> bool) : list Tick :=
  map (fun i => {| moved := true; ready := true; funded := cash i |}) (seq 0 n).

(** [cerebro.run()] on one feed. *)
Definition run (lookback : nat) (bars : list Bt.Bar) (cash : nat -> nat -> bool)
  : result (list Bt.Order * Engine) :=
  run_ticks (one_feed (length bars) cash) (boot lookback bars).

(* ================================================================== *)
(** ** Performance report *)

(** What [generate_performance_report] reads from [cerebro] after a run
    with at least one feed, when [cerebro.runstrats[0][0]] is the strategy
    that was added. *)
Record Cerebro : Type := {
  startingcash : num;            (* [cerebro.broker.set_cash(...)] *)
  getvalue : num;                (* [cerebro.broker.getvalue()] *)
  trade_pnls : list num;         (* [cerebro.runstrats[0][0].trade_pnls] *)
}.

Definition initial_value : num := Fin 1000000.

Definition total_returns (portfolio_value : num) : num :=
  F.mul (F.div (F.sub portfolio_value initial_value) initial_value) (Fin 100).

Definition daily_returns_of (pnls : list num) : list num :=
  map (fun pnl => F.div pnl initial_value) pnls.

(** The test [np.std(...) != 0] is decided on the exact deviation.  On
    doubles the deviation of one value, or of two equal values, is exactly
    0 as well; that of three or more equal values can be a rounding error
    of the mean instead. *)
Definition sharpe_ratio_of (daily_returns : list num) : num :=
  if F.neb (Np.std daily_returns) (Fin 0)
  then F.div (Np.mean daily_returns) (Np.std daily_returns)
  else Fin 0.

(** [daily_returns[daily_returns > 0]] *)
Definition positive (daily_returns : list num) : list num :=
  filter (fun r => F.gtb r (Fin 0)) daily_returns.

Definition sortino_ratio_of (daily_returns : list num) : num :=
  if F.neb (Np.std (positive daily_returns)) (Fin 0)
  then F.div (Np.mean (positive daily_returns)) (Np.std (positive daily_returns))
  else Fin 0.

Definition max_drawdown_of (daily_returns : list num) : result num :=
  lo <- Py.min daily_returns ;;
  hi <- Py.max daily_returns ;;
  Ok (Py.max2 (F.sub (Fin 1) (F.div lo hi)) (Fin 0)).

Definition hit_ratio_of (pnls : list num) : num :=
  let trade_count := length pnls in
  let winning_trades := Pd.count_if (fun pnl => F.gtb pnl (Fin 0)) pnls in
  if (0 <? trade_count)%nat
  then F.div (F.of_nat winning_trades) (F.of_nat trade_count)
  else Fin 0.

(** [generate_performance_report(cerebro)]: the lines printed, and whether
    the function returned or raised. *)
Definition generate_performance_report (cerebro : Cerebro)
  : list line * result unit :=
  let portfolio_value := getvalue cerebro in
  let returns := total_returns portfolio_value in
  let daily_returns := daily_returns_of (trade_pnls cerebro) in
  let sharpe_ratio := sharpe_ratio_of daily_returns in
  let sortino_ratio := sortino_ratio_of daily_returns in
  let out := [PrintF "Total Portfolio Value" portfolio_value;
              PrintF "Total Returns" returns;
              PrintF "Sharpe Ratio" sharpe_ratio;
              PrintF "Sortino Ratio" sortino_ratio] in
  match max_drawdown_of daily_returns with
  | Raise e => (out, Raise e)
  | Ok max_drawdown =>
      let trade_count := length (trade_pnls cerebro) in
      let hit_ratio := hit_ratio_of (trade_pnls cerebro) in
      (out ++ [PrintF "Maximum Drawdown" (F.mul max_drawdown (Fin 100));
               PrintD "Trade Frequency" trade_count;
               PrintF "Hit Ratio" (F.mul hit_ratio (Fin 100))],
       Ok tt)
  end.

(** [cerebro.runstrats] when [run_alpha3_backtest_portfolio] calls the
    report: [cerebro.run()] returns at once when no feed was added, before
    it creates the attribute; after a run with a feed the attribute holds
    the one strategy, here its [trade_pnls]. *)
Definition runstrats_after (feeds : list IndexedFrame) (trade_pnls : list num)
  : option (list num) :=
  match feeds with
  | [] => None
  | _ :: _ => Some trade_pnls
  end.

(** [generate_performance_report(cerebro)] as [run_alpha3_backtest_portfolio]
    calls it: the first two lines are printed before the strategy is looked
    up in [cerebro.runstrats]. *)
Definition report_after_run (portfolio_value : num) (runstrats : option (list num))
  : list line * result unit :=
  match runstrats with
  | None =>
      ([PrintF "Total Portfolio Value" portfolio_value;
        PrintF "Total Returns" (total_returns portfolio_value)],
       Raise AttributeError)
  | Some pnls =>
      generate_performance_report
        {| startingcash := Fin 1000000; getvalue := portfolio_value; trade_pnls := pnls |}
  end.

(* ================================================================== *)
(** ** Reference definitions on real numbers

    The quantities of the specification, written on lists of reals.  The
    theorems below relate what the notebook computes to them. *)

Definition Rsum (l : list R) : R := fold_right Rplus 0%R l.

Definition Rmean (l : list R) : R := (Rsum l / INR (length l))%R.

Definition Rdev (l : list R) : list R := map (fun v => (v - Rmean l)%R) l.

Definition Rdot (x y : list R) : R :=
  Rsum (map (fun p => (fst p * snd p)%R) (combine x y)).

(** population variance and standard deviation *)
Definition Rvar (l : list R) : R := (Rdot (Rdev l) (Rdev l) / INR (length l))%R.
Definition Rstd (l : list R) : R := R_sqrt.sqrt (Rvar l).

(** smallest and largest item of a non-empty list [x :: l] *)
Definition Rmin_list (x : R) (l : list R) : R := fold_right Rmin x l.
Definition Rmax_list (x : R) (l : list R) : R := fold_right Rmax x l.

(** The drawdown figure of the report, in percent, on the sample
    [x :: l]. *)
Definition drawdown_percent (x : R) (l : list R) : R :=
  (Rmax (1 - Rmin_list x l / Rmax_list x l) 0 * 100)%R.

(** Pearson's correlation coefficient of two sequences of one length:
    the sum of the products of the deviations over the product of the
    roots of the two sums of squared deviations; undefined (NaN) when one
    of the sequences has no spread. *)
Definition pearson (x y : list R) : num :=
  let sxy := Rdot (Rdev x) (Rdev y) in
  let sxx := Rdot (Rdev x) (Rdev x) in
  let syy := Rdot (Rdev y) (Rdev y) in
  if Reqb (sxx * syy) 0 then NaN
  else Fin (sxy / (R_sqrt.sqrt sxx * R_sqrt.sqrt syy)).

(** Average rank of [v] in [l]: the number of smaller items plus the
    mean of [1 .. dups], [dups] the number of items equal to [v]. *)
Definition average_rank (l : list R) (v : R) : R :=
  (INR (Pd.count_if (fun w => Rltb w v) l)
   + (INR (Pd.count_if (fun w => Reqb w v) l) + 1) / 2)%R.

Definition average_ranks (l : list R) : list R := map (average_rank l) l.

(** a rank is NaN or a real number *)
Definition nan_or_real (w : num) : Prop := w = NaN \/ exists r, w = Fin r.

(** The cells of the column that [load_stock_data] reads the time from:
    [timestamp] when there is one, otherwise [date]. *)
Definition time_cells (df : Pd.DataFrame) : list Pd.cell :=
  if Pd.has_column df "timestamp" then Pd.values df "timestamp"
  else if Pd.has_column df "date" then Pd.values df "date"
  else [].

(** Every time cell is a number or a date. *)
Definition time_converts (df : Pd.DataFrame) : bool :=
  forallb (fun c => match c with Pd.Other _ => false | _ => true end)
          (time_cells df).

(** The header has a time column and the five required columns. *)
Definition has_all_columns (df : Pd.DataFrame) : bool :=
  (Pd.has_column df "timestamp" || Pd.has_column df "date")
  && forallb (Pd.has_column df) required_columns.

(** The files that the loading loop looks at and that do not load. *)
Definition rejected (files : list (string * Pd.DataFrame)) : list string :=
  map fst (filter (fun f => endswith (fst f) "1h.csv" && negb (has_all_columns (snd f)))
                  files).

Definition accepted (files : list (string * Pd.DataFrame)) : list string :=
  map fst (filter (fun f => endswith (fst f) "1h.csv" && has_all_columns (snd f))
                  files).

(** The files named on a [Skipping] line. *)
Definition skipped (out : list line) : list string :=
  flat_map (fun l => match l with Skipping file_path _ => [file_path] | _ => [] end) out.

(** The position of the state machine that [self.position] stands for. *)
Inductive Position : Type := FLAT | LONG.

Definition state_of (position : Z) : Position :=
  if in_position position then LONG else FLAT.

(** no position, or one unit long *)
Definition flat_or_long (position : Z) : Prop := position = 0%Z \/ position = 1%Z.

(** An order log that a flat-or-long position can have produced: a BUY
    only when flat, a SELL only when long. *)
Fixpoint alternates (p : Position) (log : list Bt.Order) : bool :=
  match log, p with
  | [], _ => true
  | Bt.Buy :: rest, FLAT => alternates LONG rest
  | Bt.Sell :: rest, LONG => alternates FLAT rest
  | _, _ => false
  end.

(** The [L] most recent values of a line at bar [i], the current bar
    first. *)
Definition recent {A : Type} (L : nat) (i : nat) (values : list A) : list A :=
  rev (firstn L (skipn (i + 1 - L) values)).

(** The [L] values that [next] reads at bar [i] of a line of [N] values:
    item [k] is the value at position [i - k] modulo [N], so that after
    bar 0 the reading goes on from the end of the line. *)
Definition wrapped (L : nat) (i : nat) (values : list num) : list num :=
  map (fun k => nth (Z.to_nat ((Z.of_nat i - Z.of_nat k) mod Z.of_nat (length values)))
                    values NaN)
      (Py.range L).

(** The text before the colon of a printed line. *)
Definition label_of (l : line) : string :=
  match l with
  | Loading _ => "Loading"
  | Skipping _ _ => "Skipping"
  | PrintF label _ => label
  | PrintD label _ => label
  end.

(* ================================================================== *)
(** ** combine_datasets *)

(** The time that a cell converts to. *)
Definition cell_time (c : Pd.cell) : Z :=
  match c with
  | Pd.Digits n => Z.of_N n
  | Pd.Stamp t => t
  | Pd.Other _ => 0%Z
  end.

(** The frame that [combine_datasets] builds up: the time index, the
    columns and, per column, one cell per row, [None] where
    [pd.concat] fills in NaN. *)
Record CombinedFrame : Type := {
  combined_index : list Z;
  combined_columns : list string;
  combined_values : string -> list (option Pd.cell);
}.

(** [pd.DataFrame()] *)
Definition empty_frame : CombinedFrame :=
  {| combined_index := []; combined_columns := []; combined_values := fun _ => [] |}.

(** [pd.concat([combined_data, df])] with its defaults (rows appended,
    outer join on the columns, no sorting): the index of [df] follows the
    index so far, the columns that are new follow the columns so far, and
    a column that one of the two frames lacks is NaN on the rows of that
    frame. *)
Definition concat_frames (combined_data : CombinedFrame) (df : IndexedFrame)
  : CombinedFrame :=
  {| combined_index := combined_index combined_data ++ index df;
     combined_columns :=
       combined_columns combined_data
       ++ filter (fun c => negb (existsb (String.eqb c) (combined_columns combined_data)))
                 (frame_columns df);
     combined_values := fun c =>
       (if existsb (String.eqb c) (combined_columns combined_data)
        then combined_values combined_data c
        else repeat None (length (combined_index combined_data)))
       ++ (if existsb (String.eqb c) (frame_columns df)
           then map Some (frame_values df c)
           else repeat None (length (index df))) |}.

(** The loop of [combine_datasets] over the files that [os.walk] lists,
    each with the frame [pd.read_csv] reads from it, from the frame
    combined so far. *)
Fixpoint combine_loop (files : list (string * Pd.DataFrame))
                      (combined_data : CombinedFrame)
  : list line * result CombinedFrame :=
  match files with
  | [] => ([], Ok combined_data)
  | (file_path, df) :: rest =>
      if endswith file_path ".csv" then
        match load_stock_data file_path df with
        | Ok loaded =>
            let (out, r) := combine_loop rest (concat_frames combined_data loaded) in
            (Loading file_path :: out, r)
        | Raise (KeyError e) =>
            let (out, r) := combine_loop rest combined_data in
            (Loading file_path :: Skipping file_path e :: out, r)
        | Raise e => ([Loading file_path], Raise e)
        end
      else combine_loop rest combined_data
  end.

Definition combine_datasets (files : list (string * Pd.DataFrame))
  : list line * result CombinedFrame :=
  combine_loop files empty_frame.

(** The rows that a file contributes to the combined frame: the times
    of its time column when it loads, none otherwise. *)
Definition rows_of (f : string * Pd.DataFrame) : list Z :=
  if endswith (fst f) ".csv" && has_all_columns (snd f)
  then map cell_time (time_cells (snd f))
  else [].

(** The frames that the loading loop of the back-test hands to the
    engine for one file. *)
Definition feeds_for (f : string * Pd.DataFrame) : list IndexedFrame :=
  if endswith (fst f) "1h.csv" then
    match load_stock_data (fst f) (snd f) with
    | Ok loaded => [loaded]
    | Raise _ => []
    end
  else [].

(** What the loading loop of the back-test prints for one file. *)
Definition lines_for (f : string * Pd.DataFrame) : list line :=
  if endswith (fst f) "1h.csv" then
    match load_stock_data (fst f) (snd f) with
    | Raise (KeyError e) => [Loading (fst f); Skipping (fst f) e]
    | _ => [Loading (fst f)]
    end
  else [].

(* ================================================================== *)
(** ** notify_trade *)

(** What [notify_trade] reads of a backtrader trade. *)
Record Trade : Type := {
  isclosed : bool;
  pnl : num;
}.

(** [Alpha3Strategy.notify_trade]: the new value of [self.trade_pnls]. *)
Definition notify_trade (trade_pnls : list num) (trade : Trade) : list num :=
  if isclosed trade then trade_pnls ++ [pnl trade] else trade_pnls.

(** [self.trade_pnls] after the notifications of a run, from the empty
    list that [__init__] sets. *)
Definition trade_pnls_after (notifications : list Trade) : list num :=
  fold_left notify_trade notifications [].

(* ================================================================== *)
(** ** Sample inputs *)

Definition bar (o v : R) : Bt.Bar :=
  {| Bt.open := Fin o; Bt.high := Fin o; Bt.low := Fin o; Bt.close := Fin o;
     Bt.volume := Fin v |}.

(** open and volume rise together *)
Definition rising_bars : list Bt.Bar := [bar 1 1; bar 2 2; bar 3 3].

(** open and volume move together between bars 0 and 2 and between
    bars 1 and 2, against each other between bars 0 and 1 *)
Definition swing_bars : list Bt.Bar := [bar 1 2; bar 2 1; bar 3 3].

(** [rising_bars] with the open in another unit and the volume shifted *)
Definition scaled_bars : list Bt.Bar :=
  [bar (1 * 10) (1 + 7); bar (2 * 10) (2 + 7); bar (3 * 10) (3 + 7)].


(** the open never moves *)
Definition still_bars : list Bt.Bar := [bar 5 1; bar 5 2; bar 5 3].

(** open and volume move together between bars 0 and 1, against each
    other between bars 0 and 2 and between bars 1 and 2 *)
Definition late_bars : list Bt.Bar := [bar 1 2; bar 2 3; bar 3 1].

(** The bar times of two feeds: the first has bars at 0, 60 and 120, the
    second at 0 and 90. *)
Definition two_feeds : list (list Z) := [[0; 60; 120]; [0; 90]]%Z.


(** Two frames: one without a [volume] column, one complete. *)
Definition frame_without_volume : Pd.DataFrame :=
  {| Pd.columns := ["timestamp"; "open"; "high"; "low"; "close"]%string;
     Pd.values := fun col => if String.eqb col "timestamp"
                             then [Pd.Digits 1000; Pd.Digits 2000] else [] |}.

Definition frame_complete : Pd.DataFrame :=
  {| Pd.columns := ["date"; "open"; "high"; "low"; "close"; "volume"]%string;
     Pd.values := fun col => if String.eqb col "date"
                             then [Pd.Stamp 1000; Pd.Stamp 2000] else [] |}.

(** A complete frame whose [timestamp] cell is no date. *)
Definition frame_bad_time : Pd.DataFrame :=
  {| Pd.columns := ["timestamp"; "open"; "high"; "low"; "close"; "volume"]%string;
     Pd.values := fun col => if String.eqb col "timestamp"
                             then [Pd.Other "hello"] else [] |}.

(* ================================================================== *)
(** * Properties *)

Local Open Scope R_scope.

(** ** Comparisons on reals *)

Lemma Rltb_true (x y : R) : x < y -> Rltb x y = true.
Proof. intros H. unfold Rltb. destruct (Rlt_dec x y); [reflexivity | contradiction]. Qed.

Lemma Rltb_false (x y : R) : y <= x -> Rltb x y = false.
Proof. intros H. unfold Rltb. destruct (Rlt_dec x y); [lra | reflexivity]. Qed.

Lemma Rltb_iff (x y : R) : Rltb x y = true <-> x < y.
Proof. unfold Rltb. destruct (Rlt_dec x y); split; intros; auto; discriminate. Qed.

Lemma Reqb_true (x y : R) : x = y -> Reqb x y = true.
Proof. intros H. unfold Reqb. destruct (Req_dec_T x y); [reflexivity | contradiction]. Qed.

Lemma Reqb_false (x y : R) : x <> y -> Reqb x y = false.
Proof. intros H. unfold Reqb. destruct (Req_dec_T x y); [contradiction | reflexivity]. Qed.

Lemma Reqb_iff (x y : R) : Reqb x y = true <-> x = y.
Proof. unfold Reqb. destruct (Req_dec_T x y); split; intros; auto; discriminate. Qed.

(** Decide every comparison of reals in the goal that [lra] can decide. *)
Ltac rdecide :=
  repeat match goal with
    | |- context [Rltb ?x ?y] =>
        first [ rewrite (Rltb_true x y) by lra | rewrite (Rltb_false x y) by lra ]
    | |- context [Reqb ?x ?y] =>
        first [ rewrite (Reqb_true x y) by lra | rewrite (Reqb_false x y) by lra ]
    end.

(** Split on the comparisons of reals that are left. *)
Ltac rsplit :=
  repeat match goal with
    | |- context [Rltb ?x ?y] =>
        let H := fresh "H" in destruct (Rltb x y) eqn:H;
        [ apply Rltb_iff in H | apply not_true_iff_false in H; rewrite Rltb_iff in H ]
    | |- context [Reqb ?x ?y] =>
        let H := fresh "H" in destruct (Reqb x y) eqn:H;
        [ apply Reqb_iff in H | apply not_true_iff_false in H; rewrite Reqb_iff in H ]
    end.

(** ** The position state machine *)

Lemma thresholds_exclusive (alpha : num) :
  F.ltb alpha (Fin (-0.5)) = true -> F.gtb alpha (Fin 0.5) = true -> False.
Proof.
  destruct alpha as [| |r|]; simpl; try discriminate.
  rewrite !Rltb_iff. lra.
Qed.

Lemma orders_for_cases (alpha : num) (position : Z) :
  orders_for alpha position =
    if F.ltb alpha (Fin (-0.5)) && negb (in_position position) then [Bt.Buy]
    else if F.gtb alpha (Fin 0.5) && in_position position then [Bt.Sell]
    else [].
Proof.
  unfold orders_for.
  destruct (F.ltb alpha (Fin (-0.5))) eqn:Hlo, (F.gtb alpha (Fin 0.5)) eqn:Hhi;
    try (exfalso; exact (thresholds_exclusive alpha Hlo Hhi));
    destruct (in_position position); reflexivity.
Qed.

Lemma state_of_FLAT (position : Z) : state_of position = FLAT <-> position = 0%Z.
Proof.
  unfold state_of, in_position.
  destruct (Z.eqb_spec position 0); simpl; split; intros; auto; try discriminate; contradiction.
Qed.

Lemma state_of_LONG (position : Z) : state_of position = LONG <-> position <> 0%Z.
Proof.
  unfold state_of, in_position.
  destruct (Z.eqb_spec position 0); simpl; split; intros; auto; try discriminate; contradiction.
Qed.

(** C2: on every bar [next] issues a BUY exactly when the signal is
    below -0.5 and the position is flat, a SELL exactly when the signal is
    above 0.5 and the position is long, and nothing in every other case,
    which leaves the position as it was; a NaN signal and a signal
    strictly between the two thresholds are such cases. *)
Theorem C2_state_machine (alpha : num) (position : Z) :
  (orders_for alpha position = [Bt.Buy] <->
     F.ltb alpha (Fin (-0.5)) = true /\ state_of position = FLAT)
  /\ (orders_for alpha position = [Bt.Sell] <->
        F.gtb alpha (Fin 0.5) = true /\ state_of position = LONG)
  /\ (orders_for alpha position = [] <->
        ~ (F.ltb alpha (Fin (-0.5)) = true /\ state_of position = FLAT)
        /\ ~ (F.gtb alpha (Fin 0.5) = true /\ state_of position = LONG))
  /\ (orders_for alpha position = [] \/ orders_for alpha position = [Bt.Buy]
      \/ orders_for alpha position = [Bt.Sell])
  /\ (orders_for alpha position = [] ->
        fold_left Bt.fill (orders_for alpha position) position = position)
  /\ (alpha = NaN -> orders_for alpha position = [])
  /\ (F.gtb alpha (Fin (-0.5)) = true -> F.ltb alpha (Fin 0.5) = true ->
        orders_for alpha position = []).
Proof.
  rewrite orders_for_cases. unfold state_of.
  destruct (F.ltb alpha (Fin (-0.5))) eqn:Hlo, (F.gtb alpha (Fin 0.5)) eqn:Hhi;
    try (exfalso; exact (thresholds_exclusive alpha Hlo Hhi));
    destruct (in_position position) eqn:Hp; simpl;
    repeat split; intros;
    repeat match goal with
      | H : _ /\ _ |- _ => destruct H
      | H : ~ (_ /\ _) |- _ => try (exfalso; apply H; split; reflexivity); clear H
      end;
    try reflexivity; try discriminate; try tauto;
    try (intros [? ?]; discriminate).
  all: try (subst alpha; simpl in *; discriminate).
  all: try (destruct alpha as [| |r|]; simpl in *; try discriminate;
            unfold F.gtb in *; simpl in *;
            repeat match goal with H : Rltb _ _ = true |- _ => apply Rltb_iff in H end;
            lra).
Qed.

(** ** One order at a time *)




(** ** numpy on arrays of finite numbers *)

Lemma INR_length_pos {A : Type} (a : A) (l : list A) : 0 < INR (length (a :: l)).
Proof. apply lt_0_INR. simpl. lia. Qed.

Lemma fold_add_Fin (l : list R) (a : R) :
  fold_left F.add (map Fin l) (Fin a) = Fin (a + Rsum l).
Proof.
  revert a. induction l as [|x l IH]; intros a; simpl.
  - f_equal. lra.
  - rewrite IH. f_equal. lra.
Qed.

Lemma Np_sum_Fin (l : list R) : Np.sum (map Fin l) = Fin (Rsum l).
Proof. unfold Np.sum. rewrite fold_add_Fin. f_equal. lra. Qed.

Lemma Np_mean_nil : Np.mean [] = NaN.
Proof. unfold Np.mean, Np.sum, F.of_nat. simpl. unfold F.inf_signed. now rdecide. Qed.

Lemma Np_mean_Fin (l : list R) :
  l <> [] -> Np.mean (map Fin l) = Fin (Rmean l).
Proof.
  intros Hl. unfold Np.mean. rewrite Np_sum_Fin, length_map. unfold F.of_nat. simpl.
  destruct l as [|x l]; [contradiction|].
  pose proof (INR_length_pos x l). rewrite Reqb_false by lra. reflexivity.
Qed.

Lemma map_sub_Fin (l : list R) (m : R) :
  map (fun v => F.sub v (Fin m)) (map Fin l) = map Fin (map (fun v => v - m) l).
Proof. rewrite !map_map. apply map_ext. intros v. reflexivity. Qed.

Lemma Np_dot_Fin (x y : list R) :
  Np.dot (map Fin x) (map Fin y) = Fin (Rdot x y).
Proof.
  unfold Np.dot, Rdot. rewrite <- Np_sum_Fin. f_equal.
  revert y. induction x as [|a x IH]; intros [|b y]; simpl; try reflexivity.
  now rewrite IH.
Qed.

Lemma map_square_Fin (l : list R) :
  map (fun d => F.mul d d) (map Fin l)
  = map (fun p => F.mul (fst p) (snd p)) (combine (map Fin l) (map Fin l)).
Proof. induction l as [|a l IH]; simpl; [reflexivity | now rewrite IH]. Qed.

Lemma Rdot_self_nonneg (l : list R) : 0 <= Rdot l l.
Proof.
  unfold Rdot. induction l as [|a l IH]; simpl; [lra|]. nra.
Qed.

Lemma Rvar_nonneg (l : list R) : l <> [] -> 0 <= Rvar l.
Proof.
  intros Hl. unfold Rvar. destruct l as [|x l]; [contradiction|].
  apply Rle_mult_inv_pos; [apply Rdot_self_nonneg | apply INR_length_pos].
Qed.

Lemma Np_var_Fin (l : list R) :
  l <> [] -> Np.var (map Fin l) = Fin (Rvar l).
Proof.
  intros Hl. unfold Np.var. rewrite Np_mean_Fin by assumption.
  rewrite map_sub_Fin, map_square_Fin.
  change (Np.sum (map _ (combine ?a ?b))) with (Np.dot a b).
  rewrite Np_dot_Fin, length_map. unfold F.of_nat. simpl.
  destruct l as [|x l]; [contradiction|].
  pose proof (INR_length_pos x l). rewrite Reqb_false by lra. reflexivity.
Qed.

Lemma Np_std_Fin (l : list R) :
  l <> [] -> Np.std (map Fin l) = Fin (Rstd l).
Proof.
  intros Hl. unfold Np.std. rewrite Np_var_Fin by assumption. simpl.
  pose proof (Rvar_nonneg _ Hl). rewrite Rltb_false by lra. reflexivity.
Qed.

Lemma Np_std_nil : Np.std [] = NaN.
Proof. unfold Np.std, Np.var, Np.sum, F.of_nat. simpl. unfold F.inf_signed. now rdecide. Qed.

(** ** Python's [min] and [max] on finite numbers *)

Lemma Rmin_list_shift (l : list R) (a b : R) :
  Rmin_list (Rmin b a) l = Rmin b (Rmin_list a l).
Proof.
  induction l as [|c l IH]; simpl; [reflexivity|].
  rewrite IH. rewrite !Rmin_assoc. f_equal. apply Rmin_comm.
Qed.

Lemma Rmax_list_shift (l : list R) (a b : R) :
  Rmax_list (Rmax b a) l = Rmax b (Rmax_list a l).
Proof.
  induction l as [|c l IH]; simpl; [reflexivity|].
  rewrite IH. rewrite !Rmax_assoc. f_equal. apply Rmax_comm.
Qed.

Lemma min_scan_Fin (l : list R) (a : R) :
  Py.min_scan (Fin a) (map Fin l) = Fin (Rmin_list a l).
Proof.
  unfold Py.min_scan. revert a. induction l as [|b l IH]; intros a;
    cbn [fold_left map]; [reflexivity|].
  replace (if F.ltb (Fin b) (Fin a) then Fin b else Fin a) with (Fin (Rmin b a)).
  - rewrite IH. now rewrite Rmin_list_shift.
  - unfold Rmin. simpl. rsplit; destruct (Rle_dec b a); try reflexivity; f_equal; lra.
Qed.

Lemma max_scan_Fin (l : list R) (a : R) :
  Py.max_scan (Fin a) (map Fin l) = Fin (Rmax_list a l).
Proof.
  unfold Py.max_scan. revert a. induction l as [|b l IH]; intros a;
    cbn [fold_left map]; [reflexivity|].
  replace (if F.gtb (Fin b) (Fin a) then Fin b else Fin a) with (Fin (Rmax b a)).
  - rewrite IH. now rewrite Rmax_list_shift.
  - unfold F.gtb, Rmax. simpl. rsplit; destruct (Rle_dec b a); try reflexivity; f_equal; lra.
Qed.

Lemma max2_Fin (a b : R) : Py.max2 (Fin a) (Fin b) = Fin (Rmax a b).
Proof.
  unfold Py.max2, Py.max_scan, F.gtb, Rmax. simpl.
  rsplit; destruct (Rle_dec a b); try reflexivity; f_equal; lra.
Qed.

(** ** The performance report *)

Lemma daily_returns_Fin (pnls : list R) :
  daily_returns_of (map Fin pnls) = map Fin (map (fun pnl => pnl / 1000000) pnls).
Proof.
  unfold daily_returns_of, initial_value. rewrite !map_map. apply map_ext.
  intros pnl. simpl. now rdecide.
Qed.

Lemma positive_Fin (l : list R) :
  positive (map Fin l) = map Fin (filter (fun r => Rltb 0 r) l).
Proof.
  unfold positive. induction l as [|x l IH]; cbn [map filter]; [reflexivity|].
  change (F.gtb (Fin x) (Fin 0)) with (Rltb 0 x).
  destruct (Rltb 0 x); cbn [map]; now rewrite IH.
Qed.

(** On a non-empty sample the Sharpe-like ratio is the mean over the
    population standard deviation, and 0 when that deviation is 0. *)
Lemma sharpe_ratio_Fin (l : list R) :
  l <> [] ->
  sharpe_ratio_of (map Fin l)
  = if Reqb (Rstd l) 0 then Fin 0 else Fin (Rmean l / Rstd l).
Proof.
  intros Hl. unfold sharpe_ratio_of.
  rewrite Np_std_Fin, Np_mean_Fin by assumption.
  unfold F.neb. simpl. destruct (Reqb (Rstd l) 0); reflexivity.
Qed.

(** The Sortino-like ratio is the same ratio on the strictly positive
    items, as long as there is one. *)
Lemma sortino_ratio_Fin (l : list R) :
  filter (fun r => Rltb 0 r) l <> [] ->
  sortino_ratio_of (map Fin l)
  = sharpe_ratio_of (map Fin (filter (fun r => Rltb 0 r) l)).
Proof.
  intros _. unfold sortino_ratio_of, sharpe_ratio_of. now rewrite positive_Fin.
Qed.

Lemma sharpe_ratio_nil : sharpe_ratio_of [] = NaN.
Proof. unfold sharpe_ratio_of. rewrite Np_std_nil, Np_mean_nil. reflexivity. Qed.

Lemma sortino_ratio_no_positive (l : list num) :
  positive l = [] -> sortino_ratio_of l = NaN.
Proof.
  intros H. unfold sortino_ratio_of. rewrite H, Np_std_nil, Np_mean_nil. reflexivity.
Qed.

(** C3: with no closed trade the report is not completed.  The Sharpe and
    Sortino fields are printed as NaN (the mean and the deviation of an
    empty sample are NaN, and [NaN != 0] holds), and [min] of the empty
    sample then raises [ValueError] before the drawdown, the trade count
    and the hit ratio are printed. *)
Theorem C3_report_without_trades (cash value : num) :
  generate_performance_report
    {| startingcash := cash; getvalue := value; trade_pnls := [] |}
  = ([PrintF "Total Portfolio Value" value;
      PrintF "Total Returns" (total_returns value);
      PrintF "Sharpe Ratio" NaN;
      PrintF "Sortino Ratio" NaN],
     Raise ValueError).
Proof.
  unfold generate_performance_report. simpl.
  rewrite sharpe_ratio_nil, (sortino_ratio_no_positive [] eq_refl). reflexivity.
Qed.

(** C7: the guard [std != 0] does not cover an empty sample.  With no
    trade the Sharpe-like ratio is NaN, and with no winning trade (here a
    single trade that lost 5) the Sortino-like ratio is NaN although the
    Sharpe-like ratio of the same run is 0. *)
Theorem C7_ratio_of_empty_sample :
  sharpe_ratio_of (daily_returns_of []) = NaN
  /\ sortino_ratio_of (daily_returns_of []) = NaN
  /\ sharpe_ratio_of (daily_returns_of [Fin (-5)]) = Fin 0
  /\ sortino_ratio_of (daily_returns_of [Fin (-5)]) = NaN.
Proof.
  repeat split.
  - apply sharpe_ratio_nil.
  - now apply sortino_ratio_no_positive.
  - change [Fin (-5)] with (map Fin [-5]).
    rewrite daily_returns_Fin, sharpe_ratio_Fin by discriminate.
    cbn [map].
    assert (H : Rstd [-5 / 1000000] = 0).
    { unfold Rstd, Rvar, Rdot, Rdev, Rmean, Rsum. simpl.
      replace (_ / 1) with 0 by (field_simplify; lra). apply sqrt_0. }
    now rewrite H, Reqb_true.
  - apply sortino_ratio_no_positive.
    change [Fin (-5)] with (map Fin [-5]).
    rewrite daily_returns_Fin, positive_Fin. simpl. now rdecide.
Qed.

Lemma max_drawdown_Fin (x : R) (l : list R) :
  max_drawdown_of (Fin x :: map Fin l)
  = Ok (Py.max2 (F.sub (Fin 1) (F.div (Fin (Rmin_list x l)) (Fin (Rmax_list x l))))
                (Fin 0)).
Proof.
  unfold max_drawdown_of. cbn [Py.min Py.max bind].
  now rewrite min_scan_Fin, max_scan_Fin.
Qed.

Lemma max_drawdown_percent (x : R) (l : list R) :
  Rmax_list x l <> 0 ->
  F.mul (Py.max2 (F.sub (Fin 1) (F.div (Fin (Rmin_list x l)) (Fin (Rmax_list x l))))
                 (Fin 0))
        (Fin 100)
  = Fin (drawdown_percent x l).
Proof.
  intros H. unfold drawdown_percent. cbn [F.div]. rewrite Reqb_false by assumption.
  cbn [F.sub F.neg F.add]. rewrite max2_Fin. cbn [F.mul]. reflexivity.
Qed.

Lemma report_drawdown_line (cash value : num) (pnl : R) (pnls : list R) :
  nth_error
    (fst (generate_performance_report
            {| startingcash := cash; getvalue := value;
               trade_pnls := map Fin (pnl :: pnls) |})) 4
  = Some (PrintF "Maximum Drawdown"
            (F.mul (Py.max2
                      (F.sub (Fin 1)
                         (F.div (Fin (Rmin_list (pnl / 1000000)
                                        (map (fun p => p / 1000000) pnls)))
                                (Fin (Rmax_list (pnl / 1000000)
                                        (map (fun p => p / 1000000) pnls)))))
                      (Fin 0))
                   (Fin 100))).
Proof.
  unfold generate_performance_report. cbn [getvalue trade_pnls].
  rewrite daily_returns_Fin. cbn [map]. rewrite max_drawdown_Fin.
  reflexivity.
Qed.

(** C8: on a non-empty list of trade results the drawdown line of the
    report is [max(1 - min(sample) / max(sample), 0) * 100], with the
    least and the greatest item of the sample [pnl / 1000000]; and the
    figure can exceed 100: a loss of 1 and a gain of 1 give 200. *)
Theorem C8_max_drawdown (cash value : num) (pnl : R) (pnls : list R) :
  let x := pnl / 1000000 in
  let l := map (fun p => p / 1000000) pnls in
  let printed c v ps :=
    nth_error (fst (generate_performance_report
                      {| startingcash := c; getvalue := v; trade_pnls := map Fin ps |})) 4 in
  printed cash value (pnl :: pnls)
  = Some (PrintF "Maximum Drawdown"
            (F.mul (Py.max2 (F.sub (Fin 1)
                               (F.div (Fin (Rmin_list x l)) (Fin (Rmax_list x l))))
                            (Fin 0))
                   (Fin 100)))
  /\ (Rmax_list x l <> 0 ->
      printed cash value (pnl :: pnls)
      = Some (PrintF "Maximum Drawdown" (Fin (drawdown_percent x l))))
  /\ (printed cash value [-1; 1] = Some (PrintF "Maximum Drawdown" (Fin 200))
      /\ 100 < 200).
Proof.
  cbv zeta. split; [apply report_drawdown_line|]. split.
  - intros H. rewrite report_drawdown_line. now rewrite max_drawdown_percent.
  - split; [|lra]. rewrite report_drawdown_line.
    assert (Hmax : Rmax_list (-1 / 1000000) (map (fun p => p / 1000000) [1]) = 1 / 1000000).
    { simpl. unfold Rmax. destruct (Rle_dec _ _); lra. }
    assert (Hmin : Rmin_list (-1 / 1000000) (map (fun p => p / 1000000) [1]) = -1 / 1000000).
    { simpl. unfold Rmin. destruct (Rle_dec _ _); lra. }
    rewrite max_drawdown_percent by (rewrite Hmax; lra).
    unfold drawdown_percent. rewrite Hmax, Hmin.
    do 3 f_equal. unfold Rmax. destruct (Rle_dec _ _); lra.
Qed.

(** C10: the report takes 1,000,000 as the initial value, for the total
    return and for the per-trade sample alike, and never reads the cash
    the broker was given: two runs that end with the same portfolio value
    and the same closed-trade results print the same report.  The sample
    is each trade result divided by 1,000,000, and the Sharpe, Sortino and
    drawdown lines are computed from that sample. *)
Theorem C10_initial_value_constant (c1 c2 : Cerebro) :
  getvalue c1 = getvalue c2 ->
  trade_pnls c1 = trade_pnls c2 ->
  generate_performance_report c1 = generate_performance_report c2
  /\ nth_error (fst (generate_performance_report c1)) 1
     = Some (PrintF "Total Returns"
               (F.mul (F.div (F.sub (getvalue c1) (Fin 1000000)) (Fin 1000000))
                      (Fin 100)))
  /\ nth_error (fst (generate_performance_report c1)) 2
     = Some (PrintF "Sharpe Ratio"
               (sharpe_ratio_of
                  (map (fun pnl => F.div pnl (Fin 1000000)) (trade_pnls c1))))
  /\ daily_returns_of (trade_pnls c1)
     = map (fun pnl => F.div pnl (Fin 1000000)) (trade_pnls c1)
  /\ (forall pnls : list R,
        daily_returns_of (map Fin pnls) = map (fun pnl => Fin (pnl / 1000000)) pnls)
  /\ daily_returns_of [Fin 250000; Fin (-1000000)] = [Fin 0.25; Fin (-1)]
  /\ nth_error (fst (generate_performance_report c1)) 3
     = Some (PrintF "Sortino Ratio"
               (sortino_ratio_of
                  (map (fun pnl => F.div pnl (Fin 1000000)) (trade_pnls c1))))
  /\ match max_drawdown_of
             (map (fun pnl => F.div pnl (Fin 1000000)) (trade_pnls c1)) with
     | Raise e => snd (generate_performance_report c1) = Raise e
     | Ok max_drawdown =>
         nth_error (fst (generate_performance_report c1)) 4
         = Some (PrintF "Maximum Drawdown" (F.mul max_drawdown (Fin 100)))
     end.
Proof.
  intros Hv Hp.
  assert (Hfin : forall pnls : list R,
             daily_returns_of (map Fin pnls) = map (fun pnl => Fin (pnl / 1000000)) pnls).
  { intros pnls. unfold daily_returns_of, initial_value. rewrite map_map.
    apply map_ext. intros pnl. cbn [F.div]. rewrite Reqb_false by lra. reflexivity. }
  split.
  { unfold generate_performance_report. rewrite Hv, Hp. reflexivity. }
  split.
  { unfold generate_performance_report.
    destruct (max_drawdown_of (daily_returns_of (trade_pnls c1))); reflexivity. }
  split.
  { unfold generate_performance_report.
    destruct (max_drawdown_of (daily_returns_of (trade_pnls c1))); reflexivity. }
  split; [reflexivity|].
  split; [exact Hfin|].
  split.
  { change (daily_returns_of (map Fin [250000; -1000000]) = [Fin 0.25; Fin (-1)]).
    rewrite Hfin. cbn [map]. repeat f_equal; lra. }
  split.
  { unfold generate_performance_report.
    destruct (max_drawdown_of (daily_returns_of (trade_pnls c1))); reflexivity. }
  unfold generate_performance_report.
  change (map (fun pnl => F.div pnl (Fin 1000000)) (trade_pnls c1))
    with (daily_returns_of (trade_pnls c1)).
  destruct (max_drawdown_of (daily_returns_of (trade_pnls c1))); reflexivity.
Qed.

Lemma C10_witness :
  generate_performance_report
    {| startingcash := Fin 1000000; getvalue := Fin 1000100; trade_pnls := [Fin 100] |}
  = generate_performance_report
      {| startingcash := Fin 500000; getvalue := Fin 1000100; trade_pnls := [Fin 100] |}.
Proof.
  exact (proj1 (C10_initial_value_constant
                  {| startingcash := Fin 1000000; getvalue := Fin 1000100;
                     trade_pnls := [Fin 100] |}
                  {| startingcash := Fin 500000; getvalue := Fin 1000100;
                     trade_pnls := [Fin 100] |}
                  eq_refl eq_refl)).
Defined.

(** ** Loading *)

Lemma to_datetime_ms_digits (col : list Pd.cell) :
  forallb Pd.isdigit col = true -> exists ts, Pd.to_datetime_ms col = Ok ts.
Proof.
  unfold Pd.to_datetime_ms.
  induction col as [|c col IH]; cbn [forallb mapM]; intros H.
  - now exists [].
  - apply andb_prop in H as [Hc H]. destruct c; try discriminate.
    destruct (IH H) as [ts ->]. simpl. eauto.
Qed.

Lemma to_datetime_converts (col : list Pd.cell) :
  forallb (fun c => match c with Pd.Other _ => false | _ => true end) col = true ->
  exists ts, Pd.to_datetime col = Ok ts.
Proof.
  unfold Pd.to_datetime.
  induction col as [|c col IH]; cbn [forallb mapM]; intros H.
  - now exists [].
  - apply andb_prop in H as [Hc H].
    destruct (IH H) as [ts ->].
    destruct c; try discriminate; simpl; eauto.
Qed.

Lemma set_index_keeps (col : string) (cols : list string) :
  col <> "timestamp"%string ->
  existsb (String.eqb col)
          (filter (fun c => negb (String.eqb c "timestamp")) cols)
  = existsb (String.eqb col) cols.
Proof.
  intros Hne. induction cols as [|c cols IH]; simpl; [reflexivity|].
  destruct (String.eqb_spec c "timestamp") as [-> | Hc]; simpl.
  - rewrite IH. destruct (String.eqb_spec col "timestamp"); [contradiction | reflexivity].
  - now rewrite IH.
Qed.

Lemma missing_columns_none (df : Pd.DataFrame) :
  filter (fun col =>
            negb (existsb (String.eqb col)
                    (filter (fun c => negb (String.eqb c "timestamp")) (Pd.columns df))))
         required_columns = []
  <-> forallb (Pd.has_column df) required_columns = true.
Proof.
  unfold required_columns, Pd.has_column. cbn [filter forallb].
  rewrite !set_index_keeps by discriminate.
  destruct (existsb (String.eqb "open") (Pd.columns df)),
           (existsb (String.eqb "high") (Pd.columns df)),
           (existsb (String.eqb "low") (Pd.columns df)),
           (existsb (String.eqb "close") (Pd.columns df)),
           (existsb (String.eqb "volume") (Pd.columns df));
    simpl; split; intros; try reflexivity; discriminate.
Qed.

Lemma load_stock_data_columns (file_path : string) (df : Pd.DataFrame) :
  time_converts df = true ->
  match load_stock_data file_path df with
  | Ok _ => has_all_columns df = true
  | Raise e => has_all_columns df = false /\ exists why, e = KeyError why
  end.
Proof.
  unfold time_converts, time_cells, has_all_columns, load_stock_data.
  intros Hconv.
  pose proof (missing_columns_none df) as Hmiss.
  match goal with |- context [bind ?t _] => remember t as tm eqn:Htm end.
  assert (Ht : (exists ts, tm = Ok ts)
               /\ Pd.has_column df "timestamp" || Pd.has_column df "date" = true
               \/ tm = Raise (KeyError (NoTimeColumn file_path))
                  /\ Pd.has_column df "timestamp" || Pd.has_column df "date" = false).
  { subst tm. destruct (Pd.has_column df "timestamp").
    - left. split; [|reflexivity].
      destruct (forallb Pd.isdigit (Pd.values df "timestamp")) eqn:Hdig.
      + now apply to_datetime_ms_digits.
      + now apply to_datetime_converts.
    - destruct (Pd.has_column df "date").
      + left. split; [|reflexivity]. now apply to_datetime_converts.
      + right. split; reflexivity. }
  clear Htm Hconv.
  destruct Ht as [[[ts ->] ->] | [-> ->]]; cbn [bind andb]; [|split; eauto].
  destruct (filter _ required_columns) as [|m ms] eqn:Hf.
  - now apply Hmiss.
  - split; [|eauto].
    apply not_true_iff_false. intros Hall. apply Hmiss in Hall. discriminate.
Qed.

Lemma has_all_columns_false (df : Pd.DataFrame) :
  has_all_columns df = false
  <-> (exists col, In col required_columns /\ Pd.has_column df col = false)
      \/ (Pd.has_column df "timestamp" = false /\ Pd.has_column df "date" = false).
Proof.
  unfold has_all_columns. split.
  - intros H. apply andb_false_iff in H as [H | H].
    + right. now apply orb_false_iff in H.
    + left. apply not_true_iff_false in H.
      rewrite forallb_forall in H.
      destruct (existsb (fun col => negb (Pd.has_column df col)) required_columns) eqn:He.
      * apply existsb_exists in He as (col & Hin & Hc). exists col. split; [assumption|].
        now destruct (Pd.has_column df col).
      * exfalso. apply H. intros col Hin.
        destruct (Pd.has_column df col) eqn:Hc; [reflexivity|].
        assert (existsb (fun col => negb (Pd.has_column df col)) required_columns = true).
        { apply existsb_exists. exists col. now rewrite Hc. }
        congruence.
  - intros [(col & Hin & Hc) | [H1 H2]].
    + apply andb_false_iff. right. apply not_true_iff_false. intros H.
      rewrite forallb_forall in H. specialize (H col Hin). congruence.
    + now rewrite H1, H2.
Qed.

Lemma load_feeds_skips (files : list (string * Pd.DataFrame)) :
  Forall (fun f => time_converts (snd f) = true) files ->
  exists feeds,
    snd (load_feeds files) = Ok feeds
    /\ length feeds = length (accepted files)
    /\ skipped (fst (load_feeds files)) = rejected files
    /\ forall file_path why,
        In (Skipping file_path why) (fst (load_feeds files)) ->
        exists df, In (file_path, df) files
                   /\ load_stock_data file_path df = Raise (KeyError why).
Proof.
  unfold accepted, rejected, skipped.
  induction files as [|[file_path df] files IH]; intros Hall.
  - exists []. simpl. repeat split; auto. intros ? ? [].
  - inversion Hall as [|? ? Hdf Hrest]; subst. simpl in Hdf.
    destruct (IH Hrest) as (feeds & Hfeeds & Hlen & Hskip & Hwhy). clear IH.
    cbn [load_feeds filter fst snd].
    destruct (endswith file_path "1h.csv") eqn:Hend; cbn [andb].
    + pose proof (load_stock_data_columns file_path df Hdf) as Hload.
      destruct (load_stock_data file_path df) as [loaded|e] eqn:Hl.
      * rewrite Hload. cbn [negb].
        destruct (load_feeds files) as [out r]. cbn [fst snd] in *. subst r.
        exists (loaded :: feeds). cbn [bind map length flat_map app].
        repeat split; auto.
        intros p why [Hin | Hin]; [discriminate|].
        destruct (Hwhy p why Hin) as (df' & ? & ?). exists df'. split; [now right | assumption].
      * destruct Hload as [Hload [why ->]]. rewrite Hload. cbn [negb].
        destruct (load_feeds files) as [out r]. cbn [fst snd] in *. subst r.
        exists feeds. cbn [map length flat_map app] in *.
        repeat split; auto.
        -- now rewrite Hskip.
        -- intros p why' [Hin | [Hin | Hin]]; [discriminate | |].
           ++ injection Hin as <- <-. exists df. split; [now left | assumption].
           ++ destruct (Hwhy p why' Hin) as (df' & ? & ?).
              exists df'. split; [now right | assumption].
    + exists feeds. repeat split; auto.
      intros p why Hin. destruct (Hwhy p why Hin) as (df' & ? & ?).
      exists df'. split; [now right | assumption].
Qed.

(** C9 as it holds: for files whose time cells all convert, loading
    fails exactly when the header lacks one of open, high, low, close,
    volume or has neither a [timestamp] nor a [date] column, and then with
    [KeyError]; the loading loop never stops on such files: it hands every
    other file ending in [1h.csv] to the engine and prints one Skipping line,
    with the reason, for each file that failed. *)
Theorem C9_missing_columns_are_skipped (files : list (string * Pd.DataFrame)) :
  Forall (fun f => time_converts (snd f) = true) files ->
  (forall file_path df,
      In (file_path, df) files ->
      ((exists e, load_stock_data file_path df = Raise e)
       <-> (exists col, In col required_columns /\ Pd.has_column df col = false)
           \/ (Pd.has_column df "timestamp" = false /\ Pd.has_column df "date" = false))
      /\ (forall e, load_stock_data file_path df = Raise e -> exists why, e = KeyError why))
  /\ exists feeds,
      snd (load_feeds files) = Ok feeds
      /\ length feeds = length (accepted files)
      /\ skipped (fst (load_feeds files)) = rejected files
      /\ forall file_path why,
          In (Skipping file_path why) (fst (load_feeds files)) ->
          exists df, In (file_path, df) files
                     /\ load_stock_data file_path df = Raise (KeyError why).
Proof.
  intros Hall. split; [|now apply load_feeds_skips].
  intros file_path df Hin.
  rewrite Forall_forall in Hall. specialize (Hall _ Hin). simpl in Hall.
  pose proof (load_stock_data_columns file_path df Hall) as Hload.
  rewrite <- has_all_columns_false.
  destruct (load_stock_data file_path df) as [loaded|e].
  - split.
    + split; [intros [e He]; discriminate | intros H; congruence].
    + intros e He. discriminate.
  - destruct Hload as [Hload [why ->]]. split.
    + split; [intros _; assumption | intros _; eauto].
    + intros e He. injection He as <-. eauto.
Qed.

Lemma C9_witness :
  skipped (fst (load_feeds [("A_1h.csv"%string, frame_without_volume);
                            ("B_1h.csv"%string, frame_complete)]))
  = ["A_1h.csv"%string]
  /\ exists feeds,
      snd (load_feeds [("A_1h.csv"%string, frame_without_volume);
                       ("B_1h.csv"%string, frame_complete)]) = Ok feeds
      /\ length feeds = 1%nat.
Proof.
  destruct (C9_missing_columns_are_skipped
              [("A_1h.csv"%string, frame_without_volume);
               ("B_1h.csv"%string, frame_complete)])
    as (_ & feeds & Hfeeds & Hlen & Hskip & _).
  - repeat constructor.
  - split; [exact Hskip|]. exists feeds. split; [exact Hfeeds | exact Hlen].
Defined.

(** C9 as stated fails: a file with every required column and a
    [timestamp] column fails to load when a time cell is no date, the
    exception is [ValueError], which the loop does not catch, and the
    files after it are never loaded. *)
Lemma C9_unparsable_time_aborts :
  has_all_columns frame_bad_time = true
  /\ load_stock_data "A_1h.csv" frame_bad_time = Raise ValueError
  /\ load_feeds [("A_1h.csv"%string, frame_bad_time);
                 ("B_1h.csv"%string, frame_complete)]
     = ([Loading "A_1h.csv"], Raise ValueError).
Proof. repeat split. Qed.

(** ** Ranks of finite values *)

Lemma count_if_Fin (p : num -> bool) (q : R -> bool) (l : list R) :
  (forall x, p (Fin x) = q x) ->
  Pd.count_if p (map Fin l) = Pd.count_if q l.
Proof.
  intros Hpq. unfold Pd.count_if.
  induction l as [|x l IH]; cbn [map filter]; [reflexivity|].
  rewrite Hpq. destruct (q x); cbn [length]; now rewrite IH.
Qed.

Lemma Rsum_app (l1 l2 : list R) : Rsum (l1 ++ l2) = Rsum l1 + Rsum l2.
Proof.
  unfold Rsum. induction l1 as [|x l1 IH]; simpl; [lra|]. rewrite IH. lra.
Qed.

(** the positions [a + 1 .. a + n] add up to [n * a + n * (n + 1) / 2] *)
Lemma Rsum_positions (a n : nat) :
  Rsum (map (fun k => INR (a + 1 + k)) (seq 0 n))
  = INR n * INR a + INR n * (INR n + 1) / 2.
Proof.
  induction n as [|n IH].
  - simpl. lra.
  - rewrite seq_S, map_app, Rsum_app, IH, S_INR. unfold Rsum. cbn [map fold_right].
    rewrite !plus_INR. change (INR 0) with 0. change (INR 1) with 1. field.
Qed.

Lemma count_if_In_pos {A : Type} (p : A -> bool) (l : list A) (x : A) :
  In x l -> p x = true -> (0 < Pd.count_if p l)%nat.
Proof.
  unfold Pd.count_if. intros Hin Hp.
  assert (H : In x (filter p l)) by (apply filter_In; auto).
  destruct (filter p l); [contradiction | simpl; lia].
Qed.

Lemma rank_Fin (l : list R) : Pd.rank (map Fin l) = map Fin (average_ranks l).
Proof.
  unfold Pd.rank, average_ranks. rewrite !map_map. apply map_ext_in.
  intros x Hin. cbn [F.isnan].
  rewrite (count_if_Fin _ (fun w => Rltb w x)) by reflexivity.
  rewrite (count_if_Fin _ (fun w => Reqb w x)) by reflexivity.
  unfold average_rank.
  set (lt := Pd.count_if (fun w => Rltb w x) l).
  set (dups := Pd.count_if (fun w => Reqb w x) l).
  assert (Hd : 0 < INR dups).
  { apply lt_0_INR. apply (count_if_In_pos _ l x Hin). now apply Reqb_true. }
  unfold Py.range, F.of_nat.
  rewrite <- (map_map (fun k => INR (lt + 1 + k)) Fin), Np_sum_Fin, Rsum_positions.
  cbn [F.div]. rewrite Reqb_false by lra. f_equal. field. lra.
Qed.

(** ** Pearson's coefficient and [Series.corr] *)

Lemma Rdot_cons (a b : R) (x y : list R) :
  Rdot (a :: x) (b :: y) = a * b + Rdot x y.
Proof. reflexivity. Qed.

Lemma cauchy_schwarz_step (A P Q a b : R) :
  0 <= P -> 0 <= Q -> A * A <= P * Q ->
  (A + a * b) * (A + a * b) <= (P + a * a) * (Q + b * b).
Proof.
  intros HP HQ HA.
  pose proof (Rle_0_sqr a) as Ha. pose proof (Rle_0_sqr b) as Hb. unfold Rsqr in Ha, Hb.
  set (u := P * (b * b)). set (v := Q * (a * a)).
  assert (Hu : 0 <= u) by (apply Rmult_le_pos; assumption).
  assert (Hv : 0 <= v) by (apply Rmult_le_pos; assumption).
  set (t := A * (a * b)).
  assert (Ht : t * t <= u * v).
  { replace (t * t) with (A * A * ((a * a) * (b * b))) by (unfold t; ring).
    replace (u * v) with (P * Q * ((a * a) * (b * b))) by (unfold u, v; ring).
    apply Rmult_le_compat_r; [apply Rmult_le_pos; assumption | assumption]. }
  assert (H3 : 2 * t <= u + v).
  { destruct (Rle_dec (2 * t) (u + v)) as [|Hn]; [assumption|].
    apply Rnot_le_lt in Hn.
    assert (Hsq : (u + v) * (u + v) < (2 * t) * (2 * t)).
    { apply Rle_lt_trans with ((u + v) * (2 * t)).
      - apply Rmult_le_compat_l; lra.
      - apply Rmult_lt_compat_r; lra. }
    pose proof (Rle_0_sqr (u - v)) as Huv. unfold Rsqr in Huv. lra. }
  replace ((A + a * b) * (A + a * b)) with (A * A + 2 * t + (a * a) * (b * b))
    by (unfold t; ring).
  replace ((P + a * a) * (Q + b * b)) with (P * Q + (u + v) + (a * a) * (b * b))
    by (unfold u, v; ring).
  lra.
Qed.

Lemma cauchy_schwarz (x : list R) :
  forall y, Rdot x y * Rdot x y <= Rdot x x * Rdot y y.
Proof.
  induction x as [|a x IH]; intros [|b y].
  - unfold Rdot. simpl. lra.
  - unfold Rdot at 1 2 3. simpl. lra.
  - unfold Rdot at 1 2 4. simpl. lra.
  - rewrite !Rdot_cons.
    pose proof (cauchy_schwarz_step (Rdot x y) (Rdot x x) (Rdot y y) a b
                  (Rdot_self_nonneg x) (Rdot_self_nonneg y) (IH y)) as H.
    rewrite (Rplus_comm (a * b)), (Rplus_comm (a * a)), (Rplus_comm (b * b)).
    exact H.
Qed.

Lemma Rsqr_le_abs (s t : R) : 0 <= t -> s * s <= t * t -> - t <= s <= t.
Proof.
  intros Ht H. split.
  - destruct (Rle_dec (- t) s) as [|Hn]; [assumption|]. apply Rnot_le_lt in Hn.
    assert (t * t < s * s).
    { replace (s * s) with ((- s) * (- s)) by ring.
      apply Rle_lt_trans with (t * (- s)).
      - apply Rmult_le_compat_l; lra.
      - apply Rmult_lt_compat_r; lra. }
    lra.
  - destruct (Rle_dec s t) as [|Hn]; [assumption|]. apply Rnot_le_lt in Hn.
    assert (t * t < s * s).
    { apply Rle_lt_trans with (t * s).
      - apply Rmult_le_compat_l; lra.
      - apply Rmult_lt_compat_r; lra. }
    lra.
Qed.

Lemma Rsqr_zero (s : R) : s * s <= 0 -> s = 0.
Proof.
  intros H. destruct (Rsqr_le_abs s 0); [lra | lra | lra].
Qed.

(** the coefficient lies between -1 and 1 *)
Lemma pearson_ratio_bound (sxy sxx syy : R) :
  0 < sxx -> 0 < syy -> sxy * sxy <= sxx * syy ->
  -1 <= sxy / (sqrt sxx * sqrt syy) <= 1.
Proof.
  intros Hx Hy H.
  pose proof (sqrt_lt_R0 _ Hx) as Hsx. pose proof (sqrt_lt_R0 _ Hy) as Hsy.
  set (t := sqrt sxx * sqrt syy).
  assert (Ht : 0 < t) by (apply Rmult_lt_0_compat; assumption).
  assert (Htt : t * t = sxx * syy).
  { unfold t. replace (sqrt sxx * sqrt syy * (sqrt sxx * sqrt syy))
      with ((sqrt sxx * sqrt sxx) * (sqrt syy * sqrt syy)) by ring.
    rewrite !sqrt_sqrt by lra. reflexivity. }
  destruct (Rsqr_le_abs sxy t) as [Hlo Hhi]; [lra | lra |].
  split.
  - apply Rmult_le_reg_r with t; [assumption|].
    unfold Rdiv. rewrite Rmult_assoc, Rinv_l by lra. lra.
  - apply Rmult_le_reg_r with t; [assumption|].
    unfold Rdiv. rewrite Rmult_assoc, Rinv_l by lra. lra.
Qed.

Lemma pearson_range (x y : list R) :
  pearson x y = NaN \/ exists r, pearson x y = Fin r /\ -1 <= r <= 1.
Proof.
  unfold pearson.
  pose proof (Rdot_self_nonneg (Rdev x)) as Hx.
  pose proof (Rdot_self_nonneg (Rdev y)) as Hy.
  pose proof (cauchy_schwarz (Rdev x) (Rdev y)) as Hcs.
  destruct (Reqb _ 0) eqn:Hz; [now left|]. right.
  apply not_true_iff_false in Hz. rewrite Reqb_iff in Hz.
  eexists. split; [reflexivity|].
  apply pearson_ratio_bound; try assumption.
  - destruct (Req_dec_T (Rdot (Rdev x) (Rdev x)) 0) as [E|E]; [|lra].
    rewrite E in Hz. lra.
  - destruct (Req_dec_T (Rdot (Rdev y) (Rdev y)) 0) as [E|E]; [|lra].
    rewrite E in Hz. lra.
Qed.

Lemma Rdev_single (a : R) : Rdev [a] = [0].
Proof. unfold Rdev, Rmean, Rsum. simpl. f_equal. field. Qed.

Lemma clip_Fin (r : R) : -1 <= r <= 1 -> Np.clip (Fin r) (Fin (-1)) (Fin 1) = Fin r.
Proof.
  intros H. unfold Np.clip, F.gtb. cbn [F.isnan F.ltb].
  rewrite (Rltb_false r (-1)) by lra. cbn [F.ltb]. now rewrite (Rltb_false 1 r) by lra.
Qed.

(** [np.corrcoef] computes Pearson's coefficient. *)
Lemma corrcoef_Fin (x y : list R) :
  length x = length y -> x <> [] ->
  Np.corrcoef (map Fin x) (map Fin y) = pearson x y.
Proof.
  intros Hlen Hx.
  assert (Hy : y <> []) by (destruct x, y; simpl in *; congruence).
  unfold Np.corrcoef. rewrite length_map.
  rewrite !Np_mean_Fin by assumption. rewrite !map_sub_Fin.
  change (map (fun v => v - Rmean x) x) with (Rdev x).
  change (map (fun v => v - Rmean y) y) with (Rdev y).
  rewrite !Np_dot_Fin. unfold pearson.
  pose proof (Rdot_self_nonneg (Rdev x)) as Hxx.
  pose proof (Rdot_self_nonneg (Rdev y)) as Hyy.
  pose proof (cauchy_schwarz (Rdev x) (Rdev y)) as Hcs.
  destruct x as [|a [|a' x]]; [contradiction | |].
  - (* one pair: the scale is 1/0 *)
    destruct y as [|b [|b' y]]; try discriminate.
    rewrite !Rdev_single. unfold Rdot, Rsum, F.of_nat. simpl.
    unfold F.inf_signed. rdecide. simpl. unfold F.inf_signed. now rdecide.
  - set (n1 := (length (a :: a' :: x) - 1)%nat).
    assert (Hn : 0 < INR n1) by (apply lt_0_INR; unfold n1; simpl; lia).
    revert Hxx Hyy Hcs.
    set (sxx := Rdot (Rdev (a :: a' :: x)) (Rdev (a :: a' :: x))).
    set (syy := Rdot (Rdev y) (Rdev y)).
    set (sxy := Rdot (Rdev (a :: a' :: x)) (Rdev y)).
    intros Hxx Hyy Hcs.
    unfold F.of_nat. cbn [F.div]. rewrite (Reqb_false (INR n1) 0) by lra.
    cbn [F.mul F.sqrt].
    set (f := 1 / INR n1).
    assert (Hf : 0 < f) by (unfold f; apply Rdiv_lt_0_compat; lra).
    assert (Hsf : 0 < sqrt f) by (apply sqrt_lt_R0; assumption).
    rewrite (Rltb_false (sxx * f) 0) by (apply Rmult_le_pos; lra).
    rewrite (Rltb_false (syy * f) 0) by (apply Rmult_le_pos; lra).
    rewrite !sqrt_mult by lra. cbn [F.div].
    destruct (Req_dec_T sxx 0) as [Ex|Ex].
    + (* no spread in x *)
      assert (Exy : sxy = 0) by (apply Rsqr_zero; rewrite Ex in Hcs; lra).
      rewrite Ex, Exy, sqrt_0.
      rewrite (Reqb_true (0 * sqrt f) 0) by lra. unfold F.inf_signed.
      rewrite (Reqb_true (0 * f) 0) by lra. cbn [F.div Np.clip F.isnan].
      now rewrite (Reqb_true (0 * syy) 0) by lra.
    + assert (Hsx : 0 < sqrt sxx) by (apply sqrt_lt_R0; lra).
      rewrite (Reqb_false (sqrt sxx * sqrt f) 0)
        by (apply Rgt_not_eq; apply Rmult_lt_0_compat; assumption).
      cbn [F.div].
      destruct (Req_dec_T syy 0) as [Ey|Ey].
      * (* no spread in y *)
        assert (Exy : sxy = 0) by (apply Rsqr_zero; rewrite Ey in Hcs; lra).
        rewrite Ey, Exy, sqrt_0.
        rewrite (Reqb_true (0 * sqrt f) 0) by lra. unfold F.inf_signed.
        rewrite (Reqb_true (0 * f / (sqrt sxx * sqrt f)) 0)
          by (unfold Rdiv; rewrite !Rmult_0_l; reflexivity).
        cbn [Np.clip F.isnan].
        now rewrite (Reqb_true (sxx * 0) 0) by lra.
      * assert (Hsy : 0 < sqrt syy) by (apply sqrt_lt_R0; lra).
        rewrite (Reqb_false (sqrt syy * sqrt f) 0)
          by (apply Rgt_not_eq; apply Rmult_lt_0_compat; assumption).
        rewrite (Reqb_false (sxx * syy) 0)
          by (apply Rmult_integral_contrapositive_currified; assumption).
        replace (sxy * f / (sqrt sxx * sqrt f) / (sqrt syy * sqrt f))
          with (sxy / (sqrt sxx * sqrt syy)).
        -- apply clip_Fin. apply pearson_ratio_bound; lra.
        -- rewrite <- (sqrt_sqrt f) at 1 by lra. field. lra.
Qed.

Lemma valid_pairs_Fin (x y : list R) :
  filter (fun p => negb (F.isnan (fst p)) && negb (F.isnan (snd p)))
         (combine (map Fin x) (map Fin y))
  = combine (map Fin x) (map Fin y).
Proof.
  revert y. induction x as [|a x IH]; intros [|b y]; simpl; try reflexivity.
  now rewrite IH.
Qed.

Lemma combine_fst {A B : Type} (x : list A) :
  forall y : list B, length x = length y -> map fst (combine x y) = x.
Proof.
  induction x as [|a x IH]; intros [|b y] H; simpl in *; try congruence.
  now rewrite IH by congruence.
Qed.

Lemma combine_snd {A B : Type} (x : list A) :
  forall y : list B, length x = length y -> map snd (combine x y) = y.
Proof.
  induction x as [|a x IH]; intros [|b y] H; simpl in *; try congruence.
  now rewrite IH by congruence.
Qed.

(** [Series.corr] of two finite series is Pearson's coefficient. *)
Lemma corr_Fin (x y : list R) :
  length x = length y -> Pd.corr (map Fin x) (map Fin y) = pearson x y.
Proof.
  intros Hlen. unfold Pd.corr. rewrite valid_pairs_Fin.
  rewrite combine_fst, combine_snd by (rewrite !length_map; assumption).
  rewrite length_map.
  destruct x as [|a x].
  - destruct y; [|discriminate]. unfold pearson, Rdot, Rsum. simpl. now rdecide.
  - cbn [length Nat.ltb Nat.leb]. apply corrcoef_Fin; [assumption | discriminate].
Qed.

Lemma mul_minus_one (c : num) : F.mul (Fin (-1)) c = F.neg c.
Proof.
  destruct c as [| |r|]; simpl; unfold F.inf_signed; rdecide; try reflexivity.
  f_equal. ring.
Qed.

(** ** Reading the look-back window *)

Lemma mapM_ok {A B : Type} (f : A -> result B) (g : A -> B) (l : list A) :
  (forall a, In a l -> f a = Ok (g a)) -> mapM f l = Ok (map g l).
Proof.
  induction l as [|a l IH]; intros H; simpl; [reflexivity|].
  rewrite (H a) by now left. simpl. rewrite IH; [reflexivity|].
  intros b Hb. apply H. now right.
Qed.

Lemma mapM_raise {A B : Type} (f : A -> result B) (e : exn) (l : list A) :
  (forall a, In a l -> f a = Raise e \/ exists b, f a = Ok b) ->
  (exists a, In a l /\ f a = Raise e) ->
  mapM f l = Raise e.
Proof.
  induction l as [|a l IH]; intros Hall [a0 [Hin Ha0]]; [contradiction|].
  simpl. destruct (Hall a (or_introl eq_refl)) as [Ha | [b Ha]]; rewrite Ha;
    [reflexivity|].
  simpl. rewrite IH; [reflexivity | |].
  - intros c Hc. apply Hall. now right.
  - destruct Hin as [<- | Hin]; [congruence|]. eauto.
Qed.

Lemma index_wraps {A : Type} (l : list A) (i : Z) (d : A) :
  (- Z.of_nat (length l) <= i < Z.of_nat (length l))%Z ->
  Py.index l i = Ok (nth (Z.to_nat (i mod Z.of_nat (length l))) l d).
Proof.
  intros Hi. unfold Py.index.
  set (n := Z.of_nat (length l)) in *.
  assert (Hj : ((if (i <? 0)%Z then n + i else i) = i mod n)%Z).
  { destruct (Z.ltb_spec i 0).
    - apply Z.mod_unique with (-1)%Z; lia.
    - symmetry. apply Z.mod_small. lia. }
  rewrite Hj.
  assert (Hm : (0 <= i mod n < n)%Z) by (apply Z.mod_pos_bound; lia).
  destruct (Z.ltb_spec (i mod n) 0); [lia|].
  destruct (nth_error l (Z.to_nat (i mod n))) as [a|] eqn:Hnth.
  - f_equal. symmetry. now apply nth_error_nth.
  - apply nth_error_None in Hnth. unfold n in *. lia.
Qed.

Lemma index_raises {A : Type} (l : list A) (i : Z) :
  (i < - Z.of_nat (length l) \/ Z.of_nat (length l) <= i)%Z ->
  Py.index l i = Raise IndexError.
Proof.
  intros Hi. unfold Py.index.
  destruct (Z.ltb_spec i 0).
  - destruct (Z.ltb_spec (Z.of_nat (length l) + i) 0); [reflexivity | lia].
  - destruct (Z.ltb_spec i 0); [lia|].
    destruct (nth_error l (Z.to_nat i)) eqn:Hnth; [|reflexivity].
    assert (nth_error l (Z.to_nat i) <> None) by congruence.
    apply nth_error_Some in H1. lia.
Qed.

Lemma index_total {A : Type} (l : list A) (i : Z) :
  Py.index l i = Raise IndexError \/ exists a, Py.index l i = Ok a.
Proof.
  unfold Py.index. destruct (_ <? 0)%Z; [now left|].
  destruct (nth_error _ _); eauto.
Qed.

(** The reads of [next] at bar [i]: they succeed as long as the oldest
    one, [lookback_period - 1] bars back, stays within one length of the
    line before bar 0, and then they wrap round. *)
Lemma reads_wrap (field : Bt.Bar -> num) (data : Bt.DataFeed) (L i : nat) :
  Bt.idx data = Z.of_nat i ->
  (i < length (Bt.bars data))%nat ->
  (L <= i + 1 + length (Bt.bars data))%nat ->
  mapM (fun k => Bt.line field data (- Z.of_nat k)) (Py.range L)
  = Ok (wrapped L i (map field (Bt.bars data))).
Proof.
  intros Hidx Hi HL. unfold wrapped. apply mapM_ok.
  intros k Hk. apply in_seq in Hk. unfold Bt.line. rewrite Hidx.
  rewrite (index_wraps _ _ NaN); rewrite length_map; [reflexivity | lia].
Qed.

Lemma reads_raise (field : Bt.Bar -> num) (data : Bt.DataFeed) (L i : nat) :
  Bt.idx data = Z.of_nat i ->
  (i + 1 + length (Bt.bars data) < L)%nat ->
  mapM (fun k => Bt.line field data (- Z.of_nat k)) (Py.range L)
  = Raise IndexError.
Proof.
  intros Hidx HL. apply mapM_raise.
  - intros k _. apply index_total.
  - exists (L - 1)%nat. split; [apply in_seq; lia|].
    unfold Bt.line. apply index_raises. rewrite length_map, Hidx. lia.
Qed.

Lemma skipn_nth {A : Type} (l : list A) (n : nat) (d : A) :
  (n < length l)%nat -> skipn n l = nth n l d :: skipn (S n) l.
Proof.
  revert n. induction l as [|a l IH]; intros n Hn; simpl in Hn; [lia|].
  destruct n as [|n]; [reflexivity|]. simpl. apply IH. lia.
Qed.

(** With [L] bars of history nothing wraps: the reads are the [L] most
    recent values. *)
Lemma wrapped_recent (L i : nat) (values : list num) :
  (i < length values)%nat -> (L <= i + 1)%nat ->
  wrapped L i values = recent L i values.
Proof.
  intros Hi. unfold wrapped, recent, Py.range.
  induction L as [|L IH]; intros HL.
  - reflexivity.
  - rewrite seq_S, map_app, IH by lia. cbn [map Nat.add].
    replace (i + 1 - L)%nat with (S (i + 1 - S L)) by lia.
    rewrite (skipn_nth values (i + 1 - S L) NaN) by lia.
    cbn [firstn rev]. do 2 f_equal.
    rewrite Z.mod_small by lia. f_equal. lia.
Qed.

(** ** The alpha signal *)

Lemma alpha_signal_of_reads (self : Alpha3Strategy) (opens volumes : list num) :
  mapM (fun i => Bt.line Bt.open (data self) (- Z.of_nat i))
       (Py.range (lookback_period self)) = Ok opens ->
  mapM (fun i => Bt.line Bt.volume (data self) (- Z.of_nat i))
       (Py.range (lookback_period self)) = Ok volumes ->
  alpha_signal self = Ok (F.neg (Pd.corr (Pd.rank opens) (Pd.rank volumes))).
Proof.
  intros Ho Hv. unfold alpha_signal. rewrite Ho, Hv. cbn [bind].
  now rewrite mul_minus_one.
Qed.

Lemma mapM_length {A B : Type} (f : A -> result B) (l : list A) :
  forall bs, mapM f l = Ok bs -> length bs = length l.
Proof.
  induction l as [|a l IH]; intros bs H; simpl in H.
  - injection H as <-. reflexivity.
  - destruct (f a) as [b|]; [|discriminate]. simpl in H.
    destruct (mapM f l) as [bs'|]; [|discriminate]. simpl in H.
    injection H as <-. simpl. now rewrite (IH bs').
Qed.

(** On finite bars the signal is minus Pearson's coefficient of the
    average ranks of the values read. *)
Lemma alpha_signal_finite (self : Alpha3Strategy) (os vs : list R) :
  mapM (fun i => Bt.line Bt.open (data self) (- Z.of_nat i))
       (Py.range (lookback_period self)) = Ok (map Fin os) ->
  mapM (fun i => Bt.line Bt.volume (data self) (- Z.of_nat i))
       (Py.range (lookback_period self)) = Ok (map Fin vs) ->
  alpha_signal self = Ok (F.neg (pearson (average_ranks os) (average_ranks vs))).
Proof.
  intros Ho Hv. rewrite (alpha_signal_of_reads self _ _ Ho Hv).
  rewrite !rank_Fin, corr_Fin; [reflexivity|].
  apply mapM_length in Ho, Hv. rewrite length_map in Ho, Hv.
  unfold average_ranks. rewrite !length_map. congruence.
Qed.

Lemma neg_range (c : num) :
  (c = NaN \/ exists r, c = Fin r /\ -1 <= r <= 1) ->
  F.neg c = NaN \/ exists r, F.neg c = Fin r /\ -1 <= r <= 1.
Proof.
  intros [-> | (r & -> & Hr)]; [now left|]. right. exists (- r). split; [reflexivity | lra].
Qed.

Lemma recent_map {A B : Type} (f : A -> B) (L i : nat) (l : list A) :
  recent L i (map f l) = map f (recent L i l).
Proof. unfold recent. now rewrite skipn_map, firstn_map, map_rev. Qed.

(** C1: at a bar with at least [L] bars of history (itself included)
    the alpha signal is minus Pearson's correlation coefficient of the
    average ranks of the [L] most recent open values and of the [L] most
    recent volume values, the current bar's among them; it is NaN or lies
    in [-1, 1]. *)
Theorem C1_signal_is_rank_correlation
  (self : Alpha3Strategy) (i : nat) (os vs : list R) :
  map Bt.open (Bt.bars (data self)) = map Fin os ->
  map Bt.volume (Bt.bars (data self)) = map Fin vs ->
  Bt.idx (data self) = Z.of_nat i ->
  (i < length (Bt.bars (data self)))%nat ->
  (lookback_period self <= i + 1)%nat ->
  exists s,
    alpha_signal self = Ok s
    /\ s = F.neg (pearson (average_ranks (recent (lookback_period self) i os))
                          (average_ranks (recent (lookback_period self) i vs)))
    /\ (s = NaN \/ exists r, s = Fin r /\ -1 <= r <= 1).
Proof.
  intros Ho Hv Hidx Hi HL.
  eexists. split; [|split; [reflexivity|]].
  - apply alpha_signal_finite.
    + rewrite (reads_wrap Bt.open (data self) _ i) by (auto; lia).
      rewrite wrapped_recent by (rewrite ?length_map; lia).
      now rewrite Ho, recent_map.
    + rewrite (reads_wrap Bt.volume (data self) _ i) by (auto; lia).
      rewrite wrapped_recent by (rewrite ?length_map; lia).
      now rewrite Hv, recent_map.
  - apply neg_range, pearson_range.
Qed.

Lemma C1_witness :
  exists s,
    alpha_signal {| lookback_period := 3;
                    data := {| Bt.bars := rising_bars; Bt.idx := 2 |};
                    position := 0 |} = Ok s
    /\ s = F.neg (pearson (average_ranks [3; 2; 1]) (average_ranks [3; 2; 1]))
    /\ (s = NaN \/ exists r, s = Fin r /\ -1 <= r <= 1).
Proof.
  exact (C1_signal_is_rank_correlation
           {| lookback_period := 3;
              data := {| Bt.bars := rising_bars; Bt.idx := 2 |};
              position := 0 |}
           2 [1; 2; 3] [1; 2; 3]
           eq_refl eq_refl eq_refl (le_n 3) (le_n 3)).
Defined.

(** ** A window without spread *)

Lemma Rsum_const (c : R) (l : list R) :
  (forall x, In x l -> x = c) -> Rsum l = INR (length l) * c.
Proof.
  induction l as [|a l IH]; intros H.
  - simpl. lra.
  - change (Rsum (a :: l)) with (a + Rsum l).
    change (length (a :: l)) with (S (length l)). rewrite S_INR.
    rewrite IH by (intros x Hx; apply H; now right).
    rewrite (H a) by now left. ring.
Qed.

Lemma Rdev_const (c : R) (l : list R) :
  (forall x, In x l -> x = c) -> forall d, In d (Rdev l) -> d = 0.
Proof.
  intros H d Hd. unfold Rdev in Hd. apply in_map_iff in Hd as (x & <- & Hx).
  destruct l as [|a l]; [contradiction|].
  unfold Rmean. rewrite (Rsum_const c) by assumption. rewrite (H x Hx).
  pose proof (INR_length_pos a l). field. lra.
Qed.

Lemma Rdot_zero_l (x : list R) :
  (forall d, In d x -> d = 0) -> forall y, Rdot x y = 0.
Proof.
  induction x as [|a x IH]; intros H [|b y]; try reflexivity.
  rewrite Rdot_cons, IH by (intros d Hd; apply H; now right).
  rewrite (H a) by now left. ring.
Qed.

Lemma pearson_const (x y : list R) :
  (forall a b, In a x -> In b x -> a = b) \/ (forall a b, In a y -> In b y -> a = b) ->
  pearson x y = NaN.
Proof.
  assert (Hzero : forall l, (forall a b, In a l -> In b l -> a = b) ->
                            forall d, In d (Rdev l) -> d = 0).
  { intros [|c l] H; [intros d []|]. apply (Rdev_const c).
    intros a Ha. apply H; [assumption | now left]. }
  intros [H | H]; unfold pearson;
    rewrite (Rdot_zero_l _ (Hzero _ H) (Rdev _));
    rewrite Reqb_true by ring; reflexivity.
Qed.

Lemma eqb_refl (v : num) : F.isnan v = false -> F.eqb v v = true.
Proof. destruct v; simpl; try reflexivity; try discriminate. intros _. now apply Reqb_true. Qed.

Lemma sum_positions_Fin (a n : nat) :
  Np.sum (map (fun k => F.of_nat (a + 1 + k)) (Py.range n))
  = Fin (Rsum (map (fun k => INR (a + 1 + k)) (seq 0 n))).
Proof.
  unfold Py.range, F.of_nat.
  now rewrite <- (map_map (fun k => INR (a + 1 + k)) Fin), Np_sum_Fin.
Qed.

Lemma rank_nan_or_real (s : list num) (w : num) :
  In w (Pd.rank s) -> nan_or_real w.
Proof.
  unfold Pd.rank. intros Hw. apply in_map_iff in Hw as (v & <- & Hv).
  destruct (F.isnan v) eqn:Hnan; [now left|]. right.
  rewrite sum_positions_Fin. unfold F.of_nat. cbn [F.div].
  assert (Hd : 0 < INR (Pd.count_if (fun w => F.eqb w v) s)).
  { apply lt_0_INR. apply (count_if_In_pos _ s v Hv). now apply eqb_refl. }
  rewrite Reqb_false by lra. eauto.
Qed.

Lemma rank_const (s : list num) :
  (forall a b, In a s -> In b s -> a = b) ->
  forall a b, In a (Pd.rank s) -> In b (Pd.rank s) -> a = b.
Proof.
  unfold Pd.rank. intros H a b Ha Hb.
  apply in_map_iff in Ha as (v & <- & Hv). apply in_map_iff in Hb as (w & <- & Hw).
  now rewrite (H v w Hv Hw).
Qed.

(** The pairs that [Series.corr] keeps, when both series hold ranks. *)
Lemma valid_pairs_real (s : list num) :
  forall o,
    (forall w, In w s -> nan_or_real w) ->
    (forall w, In w o -> nan_or_real w) ->
    exists xs ys,
      length xs = length ys
      /\ filter (fun p => negb (F.isnan (fst p)) && negb (F.isnan (snd p)))
                (combine s o)
         = combine (map Fin xs) (map Fin ys)
      /\ (forall x, In x xs -> In (Fin x) s)
      /\ (forall y, In y ys -> In (Fin y) o).
Proof.
  induction s as [|a s IH]; intros o Hs Ho.
  - exists [], []. simpl. repeat split; auto; intros ? [].
  - destruct o as [|b o].
    + exists [], []. simpl. repeat split; auto; intros ? [].
    + destruct (IH o) as (xs & ys & Hlen & Hf & Hxs & Hys).
      { intros w Hw. apply Hs. now right. }
      { intros w Hw. apply Ho. now right. }
      cbn [combine filter fst snd]. rewrite Hf.
      destruct (Hs a (or_introl eq_refl)) as [-> | [x ->]];
        destruct (Ho b (or_introl eq_refl)) as [-> | [y ->]]; cbn [F.isnan negb andb].
      * exists xs, ys. repeat split; auto; intros; right; auto.
      * exists xs, ys. repeat split; auto; intros; right; auto.
      * exists xs, ys. repeat split; auto; intros; right; auto.
      * exists (x :: xs), (y :: ys). cbn [length map combine].
        repeat split; auto.
        -- intros x' [<- | Hx']; [now left | right; auto].
        -- intros y' [<- | Hy']; [now left | right; auto].
Qed.

(** [Series.corr] of two series of ranks, one of them without spread. *)
Lemma corr_no_spread (s o : list num) :
  (forall w, In w s -> nan_or_real w) ->
  (forall w, In w o -> nan_or_real w) ->
  (forall a b, In a s -> In b s -> a = b) \/ (forall a b, In a o -> In b o -> a = b) ->
  Pd.corr s o = NaN.
Proof.
  intros Hs Ho Hsame.
  destruct (valid_pairs_real s o Hs Ho) as (xs & ys & Hlen & Hf & Hxs & Hys).
  unfold Pd.corr. rewrite Hf.
  rewrite combine_fst, combine_snd by (rewrite !length_map; assumption).
  rewrite length_map. destruct xs as [|x xs]; [reflexivity|].
  cbn [length Nat.ltb Nat.leb].
  rewrite corrcoef_Fin by (assumption || discriminate).
  apply pearson_const.
  destruct Hsame as [H | H]; [left | right]; intros a b Ha Hb.
  - assert (E : Fin a = Fin b) by (apply H; auto). now injection E.
  - assert (E : Fin a = Fin b) by (apply H; auto). now injection E.
Qed.

(** C5: when the open values read for the window are all the same, or the
    volume values are, the signal is NaN: [next] returns without an error
    and without an order, and the position stays as it is.  The values
    are any doubles. *)
Theorem C5_no_spread_no_action (self : Alpha3Strategy) (opens volumes : list num) :
  mapM (fun i => Bt.line Bt.open (data self) (- Z.of_nat i))
       (Py.range (lookback_period self)) = Ok opens ->
  mapM (fun i => Bt.line Bt.volume (data self) (- Z.of_nat i))
       (Py.range (lookback_period self)) = Ok volumes ->
  (forall a b, In a opens -> In b opens -> a = b)
  \/ (forall a b, In a volumes -> In b volumes -> a = b) ->
  alpha_signal self = Ok NaN
  /\ next self = Ok []
  /\ forall t e, ready t = true -> strategy (arrive t e) = self ->
       on_tick t e = Ok ([], arrive t e)
       /\ position (strategy (arrive t e)) = position self.
Proof.
  intros Ho Hv Hsame.
  assert (Ha : alpha_signal self = Ok NaN).
  { rewrite (alpha_signal_of_reads self _ _ Ho Hv).
    rewrite corr_no_spread; [reflexivity | apply rank_nan_or_real .. |].
    destruct Hsame as [H | H]; [left | right]; now apply rank_const. }
  assert (Hn : next self = Ok []).
  { unfold next. rewrite Ha. reflexivity. }
  split; [exact Ha|]. split; [exact Hn|].
  intros t e Hready Hself. split; [|now rewrite Hself].
  unfold on_tick. rewrite Hready, Hself, Hn. cbn [bind].
  rewrite app_nil_r, <- Hself. now destruct (arrive t e).
Qed.

Lemma C5_witness :
  alpha_signal {| lookback_period := 3;
                  data := {| Bt.bars := still_bars; Bt.idx := 2 |};
                  position := 1 |} = Ok NaN
  /\ next {| lookback_period := 3;
             data := {| Bt.bars := still_bars; Bt.idx := 2 |};
             position := 1 |} = Ok [].
Proof.
  destruct (C5_no_spread_no_action
              {| lookback_period := 3;
                 data := {| Bt.bars := still_bars; Bt.idx := 2 |};
                 position := 1 |}
              [Fin 5; Fin 5; Fin 5] [Fin 3; Fin 2; Fin 1] eq_refl eq_refl)
    as (Ha & Hn & _).
  - left. intros a b Ha Hb. simpl in Ha, Hb.
    destruct Ha as [<- | [<- | [<- | []]]]; destruct Hb as [<- | [<- | [<- | []]]];
      reflexivity.
  - split; assumption.
Defined.

(** ** Bars with less history than the look-back period *)

(** [next] has no test for missing history.  At a bar with fewer than
    [lookback_period] bars of history its reads before bar 0 continue from
    the end of the loaded series, the signal is computed from what was read
    and the orders follow from it as on any other bar; a look-back period
    so long that a read falls more than the length of the series before
    bar 0 ends [next] with [IndexError]. *)
Lemma next_without_history (self : Alpha3Strategy) (i : nat) :
  Bt.idx (data self) = Z.of_nat i ->
  (i < length (Bt.bars (data self)))%nat ->
  ((lookback_period self <= i + 1 + length (Bt.bars (data self)))%nat ->
   exists s,
     s = F.neg (Pd.corr
                  (Pd.rank (wrapped (lookback_period self) i
                                    (map Bt.open (Bt.bars (data self)))))
                  (Pd.rank (wrapped (lookback_period self) i
                                    (map Bt.volume (Bt.bars (data self))))))
     /\ alpha_signal self = Ok s
     /\ next self = Ok (orders_for s (position self)))
  /\ ((i + 1 + length (Bt.bars (data self)) < lookback_period self)%nat ->
      alpha_signal self = Raise IndexError /\ next self = Raise IndexError).
Proof.
  intros Hidx Hi. split; intros HL.
  - eexists. split; [reflexivity|].
    assert (Ha : alpha_signal self = Ok (F.neg (Pd.corr
                  (Pd.rank (wrapped (lookback_period self) i
                                    (map Bt.open (Bt.bars (data self)))))
                  (Pd.rank (wrapped (lookback_period self) i
                                    (map Bt.volume (Bt.bars (data self)))))))).
    { apply alpha_signal_of_reads; apply reads_wrap; assumption. }
    split; [exact Ha|]. unfold next. rewrite Ha. reflexivity.
  - assert (Ha : alpha_signal self = Raise IndexError).
    { unfold alpha_signal. rewrite (reads_raise Bt.open (data self) _ i) by assumption.
      reflexivity. }
    split; [exact Ha|]. unfold next. rewrite Ha. reflexivity.
Qed.

Lemma pearson_self (x : list R) :
  Rdot (Rdev x) (Rdev x) <> 0 -> pearson x x = Fin 1.
Proof.
  intros H. unfold pearson. pose proof (Rdot_self_nonneg (Rdev x)) as Hp.
  rewrite Reqb_false by (apply Rmult_integral_contrapositive_currified; assumption).
  rewrite sqrt_sqrt by assumption. f_equal. now field.
Qed.

Lemma rising_ranks : average_ranks [1; 3; 2] = [1; 3; 2].
Proof.
  unfold average_ranks, average_rank, Pd.count_if. cbn [map filter].
  rdecide. cbn [length INR]. repeat f_equal; lra.
Qed.

Lemma rising_signal : alpha_signal (start 3 rising_bars) = Ok (Fin (-1)).
Proof.
  rewrite (alpha_signal_finite (start 3 rising_bars) [1; 3; 2] [1; 3; 2] eq_refl eq_refl).
  rewrite rising_ranks, pearson_self; [reflexivity|].
  unfold Rdev, Rmean, Rdot, Rsum. simpl. lra.
Qed.

(** C4: a bar with fewer than [lookback_period] bars of history is not
    passed over.  On the first bar of three, with a look-back period of 3,
    [next] reads bar 0 and then the last two bars of the series, computes
    a signal of -1 from them and issues a BUY; with a look-back period of
    5 the same call ends with [IndexError]. *)
Theorem C4_buy_on_first_bar :
  (Z.to_nat (Bt.idx (data (start 3 rising_bars))) + 1
   < lookback_period (start 3 rising_bars))%nat
  /\ alpha_signal (start 3 rising_bars) = Ok (Fin (-1))
  /\ next (start 3 rising_bars) = Ok [Bt.Buy]
  /\ mapM (fun i => Bt.line Bt.open (data (start 3 rising_bars)) (- Z.of_nat i))
          (Py.range 3)
     = Ok [Bt.open (bar 1 1); Bt.open (bar 3 3); Bt.open (bar 2 2)]
  /\ next (start 5 rising_bars) = Raise IndexError.
Proof.
  split; [simpl; lia|]. split; [apply rising_signal|].
  split.
  { unfold next. rewrite rising_signal. cbn [bind]. f_equal.
    rewrite orders_for_cases. cbn [F.ltb]. rewrite Rltb_true by lra. reflexivity. }
  split; [reflexivity|].
  apply (next_without_history (start 5 rising_bars) 0 eq_refl); simpl; lia.
Qed.

(** ** The signal on arbitrary doubles *)

Lemma clip_range (c : num) :
  Np.clip c (Fin (-1)) (Fin 1) = NaN
  \/ exists r, Np.clip c (Fin (-1)) (Fin 1) = Fin r /\ -1 <= r <= 1.
Proof.
  unfold Np.clip, F.gtb. destruct c as [| |r|]; cbn [F.isnan F.ltb].
  - now left.
  - right. exists (-1). rewrite (Rltb_false 1 (-1)) by lra. split; [reflexivity | lra].
  - right. destruct (Rltb r (-1)) eqn:Hlo.
    + exists (-1). cbn [F.ltb]. rewrite (Rltb_false 1 (-1)) by lra. split; [reflexivity | lra].
    + apply not_true_iff_false in Hlo. rewrite Rltb_iff in Hlo. cbn [F.ltb].
      destruct (Rltb 1 r) eqn:Hhi.
      * exists 1. split; [reflexivity | lra].
      * apply not_true_iff_false in Hhi. rewrite Rltb_iff in Hhi.
        exists r. split; [reflexivity | lra].
  - right. exists 1. split; [reflexivity | lra].
Qed.

(** Whatever the bars hold (NaN and infinities included), a signal that
    [next] computes is NaN or lies in [-1, 1]. *)
Lemma alpha_signal_range (self : Alpha3Strategy) (s : num) :
  alpha_signal self = Ok s ->
  s = NaN \/ exists r, s = Fin r /\ -1 <= r <= 1.
Proof.
  unfold alpha_signal. intros H.
  destruct (mapM _ _) as [opens|]; [|discriminate]. cbn [bind] in H.
  destruct (mapM _ _) as [volumes|]; [|discriminate]. cbn [bind] in H.
  replace s with (F.mul (Fin (-1)) (Pd.corr (Pd.rank opens) (Pd.rank volumes)))
    by congruence.
  rewrite mul_minus_one. apply neg_range.
  unfold Pd.corr. destruct (_ <? 1)%nat; [now left|].
  unfold Np.corrcoef. apply clip_range.
Qed.

(** ** Runs of the engine *)

Lemma pearson_equal_spread (x y : list R) (c : R) :
  0 < c -> Rdot (Rdev x) (Rdev x) = c -> Rdot (Rdev y) (Rdev y) = c ->
  pearson x y = Fin (Rdot (Rdev x) (Rdev y) / c).
Proof.
  intros Hc Hx Hy. unfold pearson. rewrite Hx, Hy.
  rewrite Reqb_false by (apply Rgt_not_eq; apply Rmult_lt_0_compat; assumption).
  rewrite sqrt_sqrt by lra. reflexivity.
Qed.

Lemma ranks_of_pair (a b : R) :
  a < b -> average_ranks [a; b] = [1; 2] /\ average_ranks [b; a] = [2; 1].
Proof.
  intros H. unfold average_ranks, average_rank, Pd.count_if. cbn [map filter].
  rdecide. cbn [length INR]. split; repeat f_equal; lra.
Qed.

Lemma pearson_pairs :
  pearson [1; 2] [1; 2] = Fin 1
  /\ pearson [2; 1] [2; 1] = Fin 1
  /\ pearson [2; 1] [1; 2] = Fin (-1).
Proof.
  repeat split.
  - apply pearson_self. unfold Rdev, Rmean, Rdot, Rsum. simpl. lra.
  - apply pearson_self. unfold Rdev, Rmean, Rdot, Rsum. simpl. lra.
  - rewrite (pearson_equal_spread [2; 1] [1; 2] (1 / 2)).
    + f_equal. unfold Rdev, Rmean, Rdot, Rsum. simpl. lra.
    + lra.
    + unfold Rdev, Rmean, Rdot, Rsum. simpl. lra.
    + unfold Rdev, Rmean, Rdot, Rsum. simpl. lra.
Qed.


Lemma pearson_against : pearson [1; 2] [2; 1] = Fin (-1).
Proof.
  rewrite (pearson_equal_spread [1; 2] [2; 1] (1 / 2)).
  - f_equal. unfold Rdev, Rmean, Rdot, Rsum. simpl. lra.
  - lra.
  - unfold Rdev, Rmean, Rdot, Rsum. simpl. lra.
  - unfold Rdev, Rmean, Rdot, Rsum. simpl. lra.
Qed.

Lemma late_signals (p0 p1 p2 : Z) :
  alpha_signal {| lookback_period := 2;
                  data := {| Bt.bars := late_bars; Bt.idx := 0 |};
                  position := p0 |} = Ok (Fin 1)
  /\ alpha_signal {| lookback_period := 2;
                     data := {| Bt.bars := late_bars; Bt.idx := 1 |};
                     position := p1 |} = Ok (Fin (-1))
  /\ alpha_signal {| lookback_period := 2;
                     data := {| Bt.bars := late_bars; Bt.idx := 2 |};
                     position := p2 |} = Ok (Fin 1).
Proof.
  destruct pearson_pairs as (Hup & Hdown & Hagainst).
  repeat split.
  - match goal with |- alpha_signal ?s = _ =>
      rewrite (alpha_signal_finite s [1; 3] [2; 1] eq_refl eq_refl) end.
    destruct (ranks_of_pair 1 3) as [-> _]; [lra|].
    destruct (ranks_of_pair 1 2) as [_ ->]; [lra|].
    rewrite pearson_against. cbn [F.neg]. do 2 f_equal. lra.
  - match goal with |- alpha_signal ?s = _ =>
      rewrite (alpha_signal_finite s [2; 1] [3; 2] eq_refl eq_refl) end.
    destruct (ranks_of_pair 1 2) as [_ ->]; [lra|].
    destruct (ranks_of_pair 2 3) as [_ ->]; [lra|].
    now rewrite Hdown.
  - match goal with |- alpha_signal ?s = _ =>
      rewrite (alpha_signal_finite s [3; 2] [1; 3] eq_refl eq_refl) end.
    destruct (ranks_of_pair 2 3) as [_ ->]; [lra|].
    destruct (ranks_of_pair 1 3) as [-> _]; [lra|].
    rewrite Hagainst. cbn [F.neg]. do 2 f_equal. lra.
Qed.

Lemma orders_at_signals (p : Z) :
  orders_for (Fin (-1)) p = (if in_position p then [] else [Bt.Buy])
  /\ orders_for (Fin 1) p = (if in_position p then [Bt.Sell] else []).
Proof.
  rewrite !orders_for_cases. unfold F.gtb. cbn [F.ltb].
  rewrite (Rltb_true (-1) (-0.5)), (Rltb_false 1 (-0.5)), (Rltb_true 0.5 1),
    (Rltb_false 0.5 (-1)) by lra.
  destruct (in_position p); split; reflexivity.
Qed.

Lemma next_of_signal (self : Alpha3Strategy) (s : num) :
  alpha_signal self = Ok s -> next self = Ok (orders_for s (position self)).
Proof. intros H. unfold next. now rewrite H. Qed.

Lemma insert_time_first (dt : Z) (times : list Z) :
  Forall (fun t => (dt < t)%Z) times -> insert_time dt times = dt :: times.
Proof.
  destruct times as [|t rest]; intros H; cbn [insert_time]; [reflexivity|].
  inversion H; subst. now rewrite (proj2 (Z.ltb_lt dt t)).
Qed.

(** With one feed, its bar times in increasing order, the clock ticks once
    per bar; at every tick the feed moves and [next] is called, as in
    [one_feed]. *)
Lemma ticks_of_one_feed (times : list Z) (cash : Z -> nat -> bool) :
  StronglySorted Z.lt times ->
  ticks_of [times] cash
  = map (fun dt => {| moved := true; ready := true; funded := cash dt |}) times.
Proof.
  intros H. unfold ticks_of.
  assert (Hclock : clock [times] = times).
  { unfold clock. cbn [concat]. rewrite app_nil_r.
    induction H as [|dt times Hs IH Hlt]; cbn [fold_right]; [reflexivity|].
    rewrite IH. now apply insert_time_first. }
  rewrite Hclock. cbn [hd forallb]. apply map_ext_in. intros dt Hdt.
  assert (Hm : existsb (Z.eqb dt) times = true).
  { apply existsb_exists. exists dt. split; [assumption | apply Z.eqb_refl]. }
  assert (Hr : existsb (fun t => (t <=? dt)%Z) times = true).
  { apply existsb_exists. exists dt. split; [assumption | apply Z.leb_refl]. }
  now rewrite Hm, Hr.
Qed.

(** A tick at which the first feed moves to its next bar. *)
Lemma on_tick_new_bar (t : Tick) (L : nat) (bars : list Bt.Bar) (i j p : Z)
  (w issued : list Bt.Order) :
  moved t = true -> ready t = true -> (i + 1 = j)%Z ->
  next {| lookback_period := L; data := {| Bt.bars := bars; Bt.idx := j |};
          position := execute (funded t) 0 w p |} = Ok issued ->
  on_tick t {| strategy := {| lookback_period := L;
                              data := {| Bt.bars := bars; Bt.idx := i |};
                              position := p |};
               waiting := w |}
  = Ok (issued,
        {| strategy := {| lookback_period := L;
                          data := {| Bt.bars := bars; Bt.idx := j |};
                          position := execute (funded t) 0 w p |};
           waiting := issued |}).
Proof.
  intros Hm Hr <- Hn. unfold on_tick, arrive. rewrite Hm, Hr.
  cbn [strategy waiting lookback_period data position Bt.bars Bt.idx].
  rewrite Hn. reflexivity.
Qed.

(** A tick at which only another feed has a bar. *)
Lemma on_tick_same_bar (t : Tick) (e : Engine) (issued : list Bt.Order) :
  moved t = false -> ready t = true ->
  next (strategy e) = Ok issued ->
  on_tick t e = Ok (issued, {| strategy := strategy e; waiting := waiting e ++ issued |}).
Proof.
  intros Hm Hr Hn. unfold on_tick, arrive. rewrite Hm, Hr, Hn. reflexivity.
Qed.


(** C6: the guard of [next] looks at [self.position] only, not at an order
    that is under way.  With two feeds, the second of which has a bar at a
    time (90) between two bars of the first, [next] is called at that time
    too: the BUY issued at time 60 still waits for the next bar of its
    feed, the position is still empty, the signal is the same, and a second
    BUY is issued.  Both are executed at time 120: two BUY orders without a
    SELL between them, and a position of two units. *)
Theorem C6_second_buy_before_fill :
  map (fun t => (moved t, ready t)) (ticks_of two_feeds (fun _ _ => true))
  = [(true, true); (true, true); (false, true); (true, true)]
  /\ run_ticks (firstn 3 (ticks_of two_feeds (fun _ _ => true))) (boot 2 late_bars)
     = Ok ([Bt.Buy; Bt.Buy],
           {| strategy := {| lookback_period := 2;
                             data := {| Bt.bars := late_bars; Bt.idx := 1 |};
                             position := 0 |};
              waiting := [Bt.Buy; Bt.Buy] |})
  /\ run_ticks (ticks_of two_feeds (fun _ _ => true)) (boot 2 late_bars)
     = Ok ([Bt.Buy; Bt.Buy; Bt.Sell],
           {| strategy := {| lookback_period := 2;
                             data := {| Bt.bars := late_bars; Bt.idx := 2 |};
                             position := 2 |};
              waiting := [Bt.Sell] |})
  /\ alternates FLAT [Bt.Buy; Bt.Buy; Bt.Sell] = false
  /\ ~ flat_or_long 2.
Proof.
  assert (H0 : next {| lookback_period := 2;
                       data := {| Bt.bars := late_bars; Bt.idx := 0 |};
                       position := 0 |} = Ok []).
  { rewrite (next_of_signal _ _ (proj1 (late_signals 0 0 0))).
    now rewrite (proj2 (orders_at_signals _)). }
  assert (H1 : next {| lookback_period := 2;
                       data := {| Bt.bars := late_bars; Bt.idx := 1 |};
                       position := 0 |} = Ok [Bt.Buy]).
  { rewrite (next_of_signal _ _ (proj1 (proj2 (late_signals 0 0 0)))).
    now rewrite (proj1 (orders_at_signals _)). }
  assert (H2 : next {| lookback_period := 2;
                       data := {| Bt.bars := late_bars; Bt.idx := 2 |};
                       position := 2 |} = Ok [Bt.Sell]).
  { rewrite (next_of_signal _ _ (proj2 (proj2 (late_signals 0 0 2)))).
    now rewrite (proj2 (orders_at_signals _)). }
  assert (Hprefix :
    run_ticks (firstn 3 (ticks_of two_feeds (fun _ _ => true))) (boot 2 late_bars)
    = Ok ([Bt.Buy; Bt.Buy],
          {| strategy := {| lookback_period := 2;
                            data := {| Bt.bars := late_bars; Bt.idx := 1 |};
                            position := 0 |};
             waiting := [Bt.Buy; Bt.Buy] |})).
  { unfold boot. cbn [ticks_of two_feeds clock concat app fold_right insert_time
                      Z.ltb Z.eqb Z.compare Pos.compare Pos.compare_cont Pos.eqb
                      map firstn run_ticks].
    rewrite (on_tick_new_bar _ 2 _ (-1) 0 0 [] []);
    [| reflexivity | reflexivity | reflexivity | exact H0 ].
    cbn [bind fst snd execute].
    rewrite (on_tick_new_bar _ 2 _ 0 1 0 [] [Bt.Buy]);
    [| reflexivity | reflexivity | reflexivity | exact H1 ].
    cbn [bind fst snd execute].
    rewrite (on_tick_same_bar _ _ [Bt.Buy]); [| reflexivity | reflexivity | exact H1 ].
    reflexivity. }
  split; [reflexivity|]. split; [exact Hprefix|]. split.
  { unfold boot. cbn [ticks_of two_feeds clock concat app fold_right insert_time
                      Z.ltb Z.eqb Z.compare Pos.compare Pos.compare_cont Pos.eqb
                      map run_ticks].
    rewrite (on_tick_new_bar _ 2 _ (-1) 0 0 [] []);
    [| reflexivity | reflexivity | reflexivity | exact H0 ].
    cbn [bind fst snd execute].
    rewrite (on_tick_new_bar _ 2 _ 0 1 0 [] [Bt.Buy]);
    [| reflexivity | reflexivity | reflexivity | exact H1 ].
    cbn [bind fst snd execute].
    rewrite (on_tick_same_bar _ _ [Bt.Buy]); [| reflexivity | reflexivity | exact H1 ].
    cbn [bind fst snd strategy waiting app].
    rewrite (on_tick_new_bar _ 2 _ 1 2 0 [Bt.Buy; Bt.Buy] [Bt.Sell]);
    [| reflexivity | reflexivity | reflexivity | exact H2 ].
    reflexivity. }
  split; [reflexivity|].
  unfold flat_or_long. lia.
Qed.

(* ================================================================== *)
(** * Further properties of the report *)

(** X1: how the report of a back-test ends.  When no feed was loaded,
    [cerebro.run()] has returned without creating [cerebro.runstrats]: the
    report prints the portfolio value and the total return and then fails
    with [AttributeError] when it looks the strategy up.  After a run with
    a feed it fails only when no trade was closed, with [ValueError] after
    four lines; with at least one closed trade, whatever the values (NaN
    and infinities included), it returns after its seven lines.  There is
    no other way for it to end. *)
Theorem X1_report_outcomes (feeds : list IndexedFrame) (value : num) (pnls : list num) :
  (feeds = [] ->
   report_after_run value (runstrats_after feeds pnls)
   = ([PrintF "Total Portfolio Value" value;
       PrintF "Total Returns" (total_returns value)],
      Raise AttributeError))
  /\ (feeds <> [] -> pnls = [] ->
      snd (report_after_run value (runstrats_after feeds pnls)) = Raise ValueError
      /\ map label_of (fst (report_after_run value (runstrats_after feeds pnls)))
         = ["Total Portfolio Value"; "Total Returns"; "Sharpe Ratio";
            "Sortino Ratio"]%string)
  /\ (feeds <> [] -> pnls <> [] ->
      snd (report_after_run value (runstrats_after feeds pnls)) = Ok tt
      /\ map label_of (fst (report_after_run value (runstrats_after feeds pnls)))
         = ["Total Portfolio Value"; "Total Returns"; "Sharpe Ratio";
            "Sortino Ratio"; "Maximum Drawdown"; "Trade Frequency";
            "Hit Ratio"]%string)
  /\ (forall e, snd (report_after_run value (runstrats_after feeds pnls)) = Raise e ->
                (e = AttributeError /\ feeds = [])
                \/ (e = ValueError /\ feeds <> [] /\ pnls = [])).
Proof.
  destruct feeds as [|feed feeds]; cbn [runstrats_after report_after_run].
  - split; [reflexivity|]. split; [intros H; contradiction|].
    split; [intros H; contradiction|].
    intros e H. cbn [snd] in H. left. split; [congruence | reflexivity].
  - unfold generate_performance_report, max_drawdown_of, daily_returns_of.
    cbn [trade_pnls getvalue].
    destruct pnls as [|pnl pnls]; cbn [map Py.min Py.max bind fst snd].
    + split; [discriminate|]. split; [intros _ _; split; reflexivity|].
      split; [intros _ H; contradiction|].
      intros e H. right. repeat split; [congruence | discriminate].
    + split; [discriminate|]. split; [intros _ H; discriminate|].
      split; [intros _ _; split; reflexivity|].
      intros e H. discriminate.
Qed.

Lemma count_if_le {A : Type} (p : A -> bool) (l : list A) :
  (Pd.count_if p l <= length l)%nat.
Proof. unfold Pd.count_if. apply filter_length_le. Qed.

Lemma count_if_zero {A : Type} (p : A -> bool) (l : list A) :
  Pd.count_if p l = 0%nat <-> forall a, In a l -> p a = false.
Proof.
  unfold Pd.count_if. induction l as [|a l IH]; simpl.
  - split; [intros _ ? [] | reflexivity].
  - destruct (p a) eqn:Hp; simpl.
    + split; [discriminate|]. intros H. specialize (H a (or_introl eq_refl)). congruence.
    + rewrite IH. split.
      * intros H b [<- | Hb]; auto.
      * intros H b Hb. apply H. now right.
Qed.

Lemma count_if_all {A : Type} (p : A -> bool) (l : list A) :
  Pd.count_if p l = length l <-> forall a, In a l -> p a = true.
Proof.
  unfold Pd.count_if. induction l as [|a l IH]; simpl.
  - split; [intros _ ? [] | reflexivity].
  - destruct (p a) eqn:Hp; simpl.
    + split.
      * intros H b [<- | Hb]; [assumption|]. apply IH; [lia | assumption].
      * intros H. f_equal. apply IH. intros b Hb. apply H. now right.
    + split.
      * intros H. pose proof (filter_length_le p l). lia.
      * intros H. specialize (H a (or_introl eq_refl)). congruence.
Qed.

(** X2: the hit ratio is a real number between 0 and 1 for every list of
    trade results; it is 0 exactly when no result is strictly positive (in
    particular with no trade, and a NaN result never counts as a win) and
    1 exactly when there is a trade and every result is strictly positive. *)
Theorem X2_hit_ratio_range (pnls : list num) :
  exists r,
    hit_ratio_of pnls = Fin r
    /\ 0 <= r <= 1
    /\ (r = 0 <-> forall pnl, In pnl pnls -> F.gtb pnl (Fin 0) = false)
    /\ (r = 1 <-> pnls <> [] /\ forall pnl, In pnl pnls -> F.gtb pnl (Fin 0) = true).
Proof.
  unfold hit_ratio_of.
  set (p := fun pnl => F.gtb pnl (Fin 0)).
  pose proof (count_if_le p pnls) as Hle.
  pose proof (count_if_zero p pnls) as Hzero.
  pose proof (count_if_all p pnls) as Hall.
  destruct pnls as [|pnl pnls].
  - exists 0. cbn [length Nat.ltb Nat.leb]. split; [reflexivity|]. split; [lra|]. split.
    + split; [intros _ ? [] | reflexivity].
    + split; [lra | intros [H _]; contradiction].
  - set (l := pnl :: pnls) in *.
    assert (Hn : 0 < INR (length l)) by apply INR_length_pos.
    replace (0 <? length l)%nat with true by (symmetry; apply Nat.ltb_lt; simpl; lia).
    unfold F.of_nat. cbn [F.div]. rewrite Reqb_false by lra.
    eexists. split; [reflexivity|].
    assert (Hw : 0 <= INR (Pd.count_if p l) <= INR (length l)).
    { split; [apply pos_INR | now apply le_INR]. }
    split; [|split].
    + split.
      * apply Rle_mult_inv_pos; lra.
      * apply Rmult_le_reg_r with (INR (length l)); [lra|].
        unfold Rdiv. rewrite Rmult_assoc, Rinv_l by lra. lra.
    + split.
      * intros H. apply (proj1 Hzero). apply INR_eq. change (INR 0) with 0.
        apply Rmult_eq_compat_r with (r := INR (length l)) in H.
        unfold Rdiv in H. rewrite Rmult_assoc, Rinv_l in H by lra. lra.
      * intros H. apply (proj2 Hzero) in H. rewrite H. change (INR 0) with 0.
        unfold Rdiv. ring.
    + split.
      * intros H. split; [discriminate|]. apply Hall. apply INR_eq.
        apply Rmult_eq_compat_r with (r := INR (length l)) in H.
        unfold Rdiv in H. rewrite Rmult_assoc, Rinv_l in H by lra. lra.
      * intros [_ H]. apply Hall in H. rewrite H. field. lra.
Qed.

(** ** Scaling a sample (in exact arithmetic) *)

Lemma Rsum_scale (c : R) (l : list R) :
  Rsum (map (fun x => x / c) l) = Rsum l / c.
Proof.
  unfold Rsum. induction l as [|a l IH]; simpl.
  - unfold Rdiv. ring.
  - rewrite IH. unfold Rdiv. ring.
Qed.

Lemma Rmean_scale (c : R) (l : list R) :
  l <> [] -> Rmean (map (fun x => x / c) l) = Rmean l / c.
Proof.
  intros Hl. unfold Rmean. rewrite Rsum_scale, length_map.
  destruct l as [|a l]; [contradiction|]. pose proof (INR_length_pos a l).
  unfold Rdiv. ring.
Qed.

Lemma Rdev_scale (c : R) (l : list R) :
  l <> [] -> Rdev (map (fun x => x / c) l) = map (fun x => x / c) (Rdev l).
Proof.
  intros Hl. unfold Rdev. rewrite Rmean_scale by assumption. rewrite !map_map.
  apply map_ext. intros a. unfold Rdiv. ring.
Qed.

Lemma Rdot_scale (c : R) (x : list R) :
  forall y, Rdot (map (fun v => v / c) x) (map (fun v => v / c) y)
            = Rdot x y / c / c.
Proof.
  induction x as [|a x IH]; intros [|b y]; cbn [map];
    try (unfold Rdot, Rsum; simpl; unfold Rdiv; ring).
  rewrite !Rdot_cons, IH. unfold Rdiv. ring.
Qed.

Lemma Rstd_scale (c : R) (l : list R) :
  0 < c -> l <> [] -> Rstd (map (fun x => x / c) l) = Rstd l / c.
Proof.
  intros Hc Hl. unfold Rstd, Rvar.
  rewrite Rdev_scale, Rdot_scale, length_map by assumption.
  pose proof (Rvar_nonneg l Hl) as Hv. unfold Rvar in Hv.
  replace (Rdot (Rdev l) (Rdev l) / c / c / INR (length l))
    with (Rdot (Rdev l) (Rdev l) / INR (length l) / (c * c)).
  - rewrite sqrt_div by (try assumption; apply Rmult_lt_0_compat; assumption).
    now rewrite sqrt_square by lra.
  - destruct l as [|a l]; [contradiction|]. pose proof (INR_length_pos a l).
    field. lra.
Qed.

Lemma sharpe_ratio_scale (c : R) (l : list R) :
  0 < c ->
  sharpe_ratio_of (map Fin (map (fun x => x / c) l)) = sharpe_ratio_of (map Fin l).
Proof.
  intros Hc. destruct l as [|a l]; [reflexivity|].
  rewrite !sharpe_ratio_Fin by discriminate.
  rewrite Rstd_scale, Rmean_scale by (assumption || discriminate).
  set (s := Rstd (a :: l)). set (m := Rmean (a :: l)).
  destruct (Req_dec_T s 0) as [E | E].
  - rewrite E. rewrite !Reqb_true; [reflexivity | reflexivity | unfold Rdiv; ring].
  - rewrite !Reqb_false; try assumption.
    + f_equal. field. lra.
    + intros H. apply E. apply Rmult_eq_reg_r with (/ c).
      * unfold Rdiv in H. lra.
      * apply Rinv_neq_0_compat. lra.
Qed.

Lemma sortino_is_sharpe_of_positive (l : list num) :
  sortino_ratio_of l = sharpe_ratio_of (positive l).
Proof. reflexivity. Qed.

Lemma Rdiv_nonpos (a c : R) : a <= 0 -> 0 < c -> a / c <= 0.
Proof.
  intros Ha Hc. assert (Hi : 0 < / c) by now apply Rinv_0_lt_compat.
  unfold Rdiv. rewrite <- (Rmult_0_l (/ c)). apply Rmult_le_compat_r; lra.
Qed.

Lemma filter_positive_scale (c : R) (l : list R) :
  0 < c ->
  filter (fun r => Rltb 0 r) (map (fun x => x / c) l)
  = map (fun x => x / c) (filter (fun r => Rltb 0 r) l).
Proof.
  intros Hc. induction l as [|a l IH]; cbn [map filter]; [reflexivity|].
  assert (E : Rltb 0 (a / c) = Rltb 0 a).
  { destruct (Rlt_dec 0 a) as [Ha | Ha].
    - rewrite !Rltb_true; auto. now apply Rdiv_lt_0_compat.
    - apply Rnot_lt_le in Ha. rewrite !Rltb_false; auto.
      now apply Rdiv_nonpos. }
  rewrite E. destruct (Rltb 0 a); cbn [map]; now rewrite IH.
Qed.

Lemma Rmin_scale (c a b : R) : 0 < c -> Rmin (a / c) (b / c) = Rmin a b / c.
Proof.
  intros Hc. assert (Hi : 0 < / c) by now apply Rinv_0_lt_compat.
  unfold Rmin, Rdiv.
  destruct (Rle_dec a b) as [H | H], (Rle_dec (a * / c) (b * / c)) as [H' | H'];
    try reflexivity.
  - exfalso. apply H'. now apply Rmult_le_compat_r; [left|].
  - exfalso. apply H. apply Rmult_le_reg_r with (/ c); assumption.
Qed.

Lemma Rmax_scale (c a b : R) : 0 < c -> Rmax (a / c) (b / c) = Rmax a b / c.
Proof.
  intros Hc. assert (Hi : 0 < / c) by now apply Rinv_0_lt_compat.
  unfold Rmax, Rdiv.
  destruct (Rle_dec a b) as [H | H], (Rle_dec (a * / c) (b * / c)) as [H' | H'];
    try reflexivity.
  - exfalso. apply H'. now apply Rmult_le_compat_r; [left|].
  - exfalso. apply H. apply Rmult_le_reg_r with (/ c); assumption.
Qed.

Lemma Rmin_list_scale (c x : R) (l : list R) :
  0 < c -> Rmin_list (x / c) (map (fun v => v / c) l) = Rmin_list x l / c.
Proof.
  intros Hc. unfold Rmin_list. induction l as [|a l IH]; cbn [map fold_right];
    [reflexivity|]. now rewrite IH, Rmin_scale.
Qed.

Lemma Rmax_list_scale (c x : R) (l : list R) :
  0 < c -> Rmax_list (x / c) (map (fun v => v / c) l) = Rmax_list x l / c.
Proof.
  intros Hc. unfold Rmax_list. induction l as [|a l IH]; cbn [map fold_right];
    [reflexivity|]. now rewrite IH, Rmax_scale.
Qed.

Lemma inf_signed_scale (c x : R) : 0 < c -> F.inf_signed (x / c) = F.inf_signed x.
Proof.
  intros Hc. assert (Hi : 0 < / c) by now apply Rinv_0_lt_compat.
  unfold F.inf_signed, Rdiv.
  destruct (Req_dec_T x 0) as [-> | Hx].
  - rewrite !Reqb_true; [reflexivity | reflexivity | ring].
  - rewrite (Reqb_false x 0) by assumption.
    rewrite Reqb_false by (apply Rmult_integral_contrapositive_currified; lra).
    destruct (Rlt_dec 0 x) as [Hp | Hn].
    + rewrite !Rltb_true; auto. now apply Rmult_lt_0_compat.
    + apply Rnot_lt_le in Hn. rewrite !Rltb_false; auto.
      now apply Rdiv_nonpos.
Qed.

Lemma div_scale (c m M : R) :
  0 < c -> F.div (Fin (m / c)) (Fin (M / c)) = F.div (Fin m) (Fin M).
Proof.
  intros Hc. cbn [F.div].
  destruct (Req_dec_T M 0) as [-> | HM].
  - rewrite !Reqb_true; [now apply inf_signed_scale | reflexivity | unfold Rdiv; ring].
  - rewrite (Reqb_false M 0) by assumption.
    rewrite Reqb_false.
    + f_equal. field. lra.
    + unfold Rdiv. apply Rmult_integral_contrapositive_currified; [assumption|].
      apply Rinv_neq_0_compat. lra.
Qed.

(** ** Sharpe and Sortino on particular samples *)

Lemma Rstd_const (c : R) (l : list R) :
  l <> [] -> (forall x, In x l -> x = c) -> Rstd l = 0.
Proof.
  intros Hl H. unfold Rstd, Rvar.
  rewrite (Rdot_zero_l _ (Rdev_const c l H)).
  unfold Rdiv. rewrite Rmult_0_l. apply sqrt_0.
Qed.

(** X4: after a single closed trade, or two closed trades with the same
    result, the Sharpe-like ratio is 0 whatever the result is: the
    deviation of such a sample is exactly 0.  The Sortino-like ratio is
    then 0 if the result is a gain, and NaN if it is not. *)
Theorem X4_one_result_gives_zero (pnl : R) :
  sharpe_ratio_of (daily_returns_of [Fin pnl]) = Fin 0
  /\ sharpe_ratio_of (daily_returns_of [Fin pnl; Fin pnl]) = Fin 0
  /\ (0 < pnl ->
      sortino_ratio_of (daily_returns_of [Fin pnl]) = Fin 0
      /\ sortino_ratio_of (daily_returns_of [Fin pnl; Fin pnl]) = Fin 0)
  /\ (pnl <= 0 ->
      sortino_ratio_of (daily_returns_of [Fin pnl]) = NaN
      /\ sortino_ratio_of (daily_returns_of [Fin pnl; Fin pnl]) = NaN).
Proof.
  assert (Hs : forall n, (n < 2)%nat ->
             sharpe_ratio_of (map Fin (repeat pnl (S n))) = Fin 0).
  { intros n _. rewrite sharpe_ratio_Fin by discriminate.
    rewrite (Rstd_const pnl); [now rewrite Reqb_true | discriminate |].
    intros x Hx. now apply repeat_spec in Hx. }
  assert (Hsharpe : forall n, (n < 2)%nat ->
             sharpe_ratio_of (daily_returns_of (map Fin (repeat pnl (S n)))) = Fin 0).
  { intros n Hn. rewrite daily_returns_Fin, sharpe_ratio_scale by lra. now apply Hs. }
  assert (Hgain : forall n, (n < 2)%nat -> 0 < pnl ->
             sortino_ratio_of (daily_returns_of (map Fin (repeat pnl (S n)))) = Fin 0).
  { intros n Hn Hp. rewrite daily_returns_Fin.
    rewrite sortino_is_sharpe_of_positive, positive_Fin.
    rewrite filter_positive_scale by lra. rewrite sharpe_ratio_scale by lra.
    replace (filter (fun r => Rltb 0 r) (repeat pnl (S n))) with (repeat pnl (S n));
      [now apply Hs|].
    symmetry. apply forallb_filter_id. apply forallb_forall.
    intros x Hx. apply repeat_spec in Hx. subst x. now apply Rltb_true. }
  assert (Hloss : forall n, (n < 2)%nat -> pnl <= 0 ->
             sortino_ratio_of (daily_returns_of (map Fin (repeat pnl (S n)))) = NaN).
  { intros n Hn Hp. apply sortino_ratio_no_positive.
    rewrite daily_returns_Fin, positive_Fin, filter_positive_scale by lra.
    assert (E : filter (fun r => Rltb 0 r) (repeat pnl (S n)) = []).
    { generalize (S n). intros m.
      induction m as [|m IH]; cbn [repeat filter]; [reflexivity|].
      rewrite Rltb_false by lra. exact IH. }
    rewrite E. reflexivity. }
  split; [exact (Hsharpe 0%nat (Nat.lt_0_succ 1))|].
  split; [exact (Hsharpe 1%nat (Nat.lt_succ_diag_r 1))|].
  split; intros Hp; split.
  - exact (Hgain 0%nat (Nat.lt_0_succ 1) Hp).
  - exact (Hgain 1%nat (Nat.lt_succ_diag_r 1) Hp).
  - exact (Hloss 0%nat (Nat.lt_0_succ 1) Hp).
  - exact (Hloss 1%nat (Nat.lt_succ_diag_r 1) Hp).
Qed.

Lemma Rsum_positive (l : list R) :
  l <> [] -> (forall x, In x l -> 0 < x) -> 0 < Rsum l.
Proof.
  induction l as [|a l IH]; intros Hl H; [contradiction|].
  change (Rsum (a :: l)) with (a + Rsum l).
  pose proof (H a (or_introl eq_refl)) as Ha.
  destruct l as [|b l].
  - unfold Rsum. simpl. lra.
  - assert (0 < Rsum (b :: l)).
    { apply IH; [discriminate|]. intros x Hx. apply H. now right. }
    lra.
Qed.

(** X5: the Sortino-like ratio is never negative: it is NaN when no trade
    result is strictly positive and a non-negative real number
    otherwise. *)
Theorem X5_sortino_not_negative (pnls : list R) :
  (filter (fun r => Rltb 0 r) pnls = [] ->
   sortino_ratio_of (daily_returns_of (map Fin pnls)) = NaN)
  /\ (filter (fun r => Rltb 0 r) pnls <> [] ->
      exists r, sortino_ratio_of (daily_returns_of (map Fin pnls)) = Fin r /\ 0 <= r).
Proof.
  rewrite daily_returns_Fin, sortino_is_sharpe_of_positive, positive_Fin.
  rewrite filter_positive_scale by lra. rewrite sharpe_ratio_scale by lra.
  set (wins := filter (fun r => Rltb 0 r) pnls).
  split.
  - intros ->. apply sharpe_ratio_nil.
  - intros Hw. rewrite sharpe_ratio_Fin by assumption.
    destruct (Reqb (Rstd wins) 0) eqn:Hz.
    + exists 0. split; [reflexivity | lra].
    + apply not_true_iff_false in Hz. rewrite Reqb_iff in Hz.
      eexists. split; [reflexivity|].
      assert (Hsum : 0 < Rsum wins).
      { apply Rsum_positive; [assumption|]. intros x Hx.
        apply filter_In in Hx as [_ Hx]. now apply Rltb_iff. }
      assert (Hstd : 0 < Rstd wins).
      { pose proof (sqrt_pos (Rvar wins)). unfold Rstd in *. lra. }
      assert (Hmean : 0 < Rmean wins).
      { unfold Rmean. apply Rdiv_lt_0_compat; [assumption|].
        destruct wins; [contradiction | apply INR_length_pos]. }
      left. now apply Rdiv_lt_0_compat.
Qed.

(** ** The drawdown figure *)

Lemma Rmin_le_Rmax_list (x : R) (l : list R) : Rmin_list x l <= Rmax_list x l.
Proof.
  unfold Rmin_list, Rmax_list. induction l as [|a l IH]; simpl; [lra|].
  pose proof (Rmin_l a (fold_right Rmin x l)).
  pose proof (Rmin_r a (fold_right Rmin x l)).
  pose proof (Rmax_l a (fold_right Rmax x l)).
  pose proof (Rmax_r a (fold_right Rmax x l)). lra.
Qed.

Lemma report_drawdown_raw (cash value : num) (pnl : R) (pnls : list R) :
  nth_error
    (fst (generate_performance_report
            {| startingcash := cash; getvalue := value;
               trade_pnls := map Fin (pnl :: pnls) |})) 4
  = Some (PrintF "Maximum Drawdown"
            (F.mul (Py.max2
                      (F.sub (Fin 1)
                         (F.div (Fin (Rmin_list pnl pnls)) (Fin (Rmax_list pnl pnls))))
                      (Fin 0))
                   (Fin 100))).
Proof.
  rewrite report_drawdown_line.
  rewrite Rmin_list_scale, Rmax_list_scale, div_scale by lra. reflexivity.
Qed.

(** X6: with [lo] the least and [hi] the greatest trade result of a run:
    if every trade lost ([hi < 0]) the report prints a drawdown of 0; if
    some trade gained ([0 < hi]) it prints [(1 - lo / hi) * 100], which is
    never negative, is 0 exactly when all results are equal, and exceeds
    100 exactly when some trade lost. *)
Theorem X6_drawdown_cases (cash value : num) (pnl : R) (pnls : list R) :
  let lo := Rmin_list pnl pnls in
  let hi := Rmax_list pnl pnls in
  let printed :=
    nth_error (fst (generate_performance_report
                      {| startingcash := cash; getvalue := value;
                         trade_pnls := map Fin (pnl :: pnls) |})) 4 in
  (hi < 0 -> printed = Some (PrintF "Maximum Drawdown" (Fin 0)))
  /\ (0 < hi ->
      printed = Some (PrintF "Maximum Drawdown" (Fin ((1 - lo / hi) * 100)))
      /\ 0 <= (1 - lo / hi) * 100
      /\ ((1 - lo / hi) * 100 = 0 <-> lo = hi)
      /\ (100 < (1 - lo / hi) * 100 <-> lo < 0)).
Proof.
  cbv zeta. rewrite report_drawdown_raw.
  pose proof (Rmin_le_Rmax_list pnl pnls) as Hle.
  set (lo := Rmin_list pnl pnls) in *. set (hi := Rmax_list pnl pnls) in *.
  split.
  - intros Hhi. cbn [F.div]. rewrite Reqb_false by lra.
    cbn [F.sub F.neg F.add]. rewrite max2_Fin. cbn [F.mul].
    assert (H1 : 1 <= lo / hi).
    { apply Rmult_le_reg_r with (- hi); [lra|].
      replace (lo / hi * - hi) with (- lo) by (field; lra). lra. }
    unfold Rmax. destruct (Rle_dec _ _); do 3 f_equal; lra.
  - intros Hhi.
    assert (H1 : lo / hi <= 1).
    { apply Rmult_le_reg_r with hi; [lra|].
      replace (lo / hi * hi) with lo by (field; lra). lra. }
    split; [|split; [|split]].
    + cbn [F.div]. rewrite Reqb_false by lra.
      cbn [F.sub F.neg F.add]. rewrite max2_Fin. cbn [F.mul].
      unfold Rmax. destruct (Rle_dec _ _); do 3 f_equal; lra.
    + lra.
    + split.
      * intros H. assert (E : lo / hi = 1) by lra.
        apply Rmult_eq_compat_r with (r := hi) in E.
        replace (lo / hi * hi) with lo in E by (field; lra). lra.
      * intros ->. field. lra.
    + split.
      * intros H. assert (E : lo / hi < 0) by lra.
        apply Rmult_lt_compat_r with (r := hi) in E; [|assumption].
        replace (lo / hi * hi) with lo in E by (field; lra). lra.
      * intros H. assert (E : lo / hi < 0).
        { unfold Rdiv. rewrite <- (Rmult_0_l (/ hi)).
          apply Rmult_lt_compat_r; [now apply Rinv_0_lt_compat | assumption]. }
        lra.
Qed.

(** X7: when the greatest trade result is exactly 0 the division by
    [max(daily_returns)] is a division by zero that raises nothing: the
    report prints an infinite drawdown if some trade lost and NaN if every
    result is 0. *)
Theorem X7_drawdown_zero_maximum (cash value : num) (pnl : R) (pnls : list R) :
  let lo := Rmin_list pnl pnls in
  let hi := Rmax_list pnl pnls in
  let printed :=
    nth_error (fst (generate_performance_report
                      {| startingcash := cash; getvalue := value;
                         trade_pnls := map Fin (pnl :: pnls) |})) 4 in
  (hi = 0 -> lo < 0 -> printed = Some (PrintF "Maximum Drawdown" PInf))
  /\ (hi = 0 -> lo = 0 -> printed = Some (PrintF "Maximum Drawdown" NaN))
  /\ (hi = 0 -> snd (generate_performance_report
                       {| startingcash := cash; getvalue := value;
                          trade_pnls := map Fin (pnl :: pnls) |}) = Ok tt).
Proof.
  cbv zeta. rewrite report_drawdown_raw.
  split; [|split].
  - intros -> Hlo. cbn [F.div]. rewrite Reqb_true by reflexivity.
    unfold F.inf_signed. rewrite Reqb_false, Rltb_false by lra.
    cbn [F.sub F.neg F.add]. unfold Py.max2, Py.max_scan, F.gtb.
    cbn [fold_left F.ltb F.mul]. unfold F.inf_signed. now rdecide.
  - intros -> ->. cbn [F.div]. rewrite Reqb_true by reflexivity.
    unfold F.inf_signed. rewrite Reqb_true by reflexivity. reflexivity.
  - intros _. unfold generate_performance_report, max_drawdown_of, daily_returns_of.
    reflexivity.
Qed.

(* ================================================================== *)
(** * Further properties of loading *)

Lemma to_datetime_ms_ok (col : list Pd.cell) :
  forallb Pd.isdigit col = true -> Pd.to_datetime_ms col = Ok (map cell_time col).
Proof.
  intros H. apply mapM_ok. intros c Hc.
  rewrite forallb_forall in H. specialize (H c Hc). destruct c; try discriminate.
  reflexivity.
Qed.

Lemma to_datetime_ok (col : list Pd.cell) :
  forallb (fun c => match c with Pd.Other _ => false | _ => true end) col = true ->
  Pd.to_datetime col = Ok (map cell_time col).
Proof.
  intros H. apply mapM_ok. intros c Hc.
  rewrite forallb_forall in H. specialize (H c Hc). destruct c; try discriminate;
    reflexivity.
Qed.

Lemma to_datetime_raises (col : list Pd.cell) :
  forallb (fun c => match c with Pd.Other _ => false | _ => true end) col = false ->
  Pd.to_datetime col = Raise ValueError.
Proof.
  intros H. apply mapM_raise.
  - intros c _. destruct c; eauto.
  - induction col as [|c col IH]; [discriminate|]. simpl in H.
    destruct c; simpl in H;
      try (destruct (IH H) as (a & Ha & Hr); exists a; split; [now right | assumption]).
    eexists. split; [now left | reflexivity].
Qed.

Lemma digits_convert (col : list Pd.cell) :
  forallb Pd.isdigit col = true ->
  forallb (fun c => match c with Pd.Other _ => false | _ => true end) col = true.
Proof.
  intros H. apply forallb_forall. intros c Hc.
  rewrite forallb_forall in H. specialize (H c Hc). now destruct c.
Qed.

Lemma missing_columns_eq (df : Pd.DataFrame) :
  filter (fun col =>
            negb (existsb (String.eqb col)
                    (filter (fun c => negb (String.eqb c "timestamp")) (Pd.columns df))))
         required_columns
  = filter (fun col => negb (Pd.has_column df col)) required_columns.
Proof.
  apply filter_ext_in. intros col Hin. unfold Pd.has_column.
  rewrite set_index_keeps; [reflexivity|].
  unfold required_columns in Hin. simpl in Hin.
  intros ->. repeat (destruct Hin as [Hin | Hin]; [discriminate|]). exact Hin.
Qed.

(** What [load_stock_data] does, case by case. *)
Lemma load_stock_data_outcome (file_path : string) (df : Pd.DataFrame) :
  load_stock_data file_path df
  = if negb (time_converts df) then Raise ValueError
    else if negb (Pd.has_column df "timestamp" || Pd.has_column df "date")
    then Raise (KeyError (NoTimeColumn file_path))
    else match filter (fun col => negb (Pd.has_column df col)) required_columns with
         | [] => Ok {| index := map cell_time (time_cells df);
                       frame_columns :=
                         filter (fun c => negb (String.eqb c "timestamp")) (Pd.columns df);
                       frame_values := Pd.values df |}
         | m :: ms => Raise (KeyError (MissingColumns (m :: ms) file_path))
         end.
Proof.
  unfold load_stock_data, time_converts, time_cells.
  rewrite missing_columns_eq.
  destruct (Pd.has_column df "timestamp") eqn:Hts; cbn [orb negb].
  - destruct (forallb Pd.isdigit (Pd.values df "timestamp")) eqn:Hdig.
    + rewrite (digits_convert _ Hdig), (to_datetime_ms_ok _ Hdig). cbn [negb bind].
      destruct (filter _ required_columns); reflexivity.
    + destruct (forallb (fun c => match c with Pd.Other _ => false | _ => true end)
                (Pd.values df "timestamp")) eqn:Hconv; cbn [negb].
      * rewrite (to_datetime_ok _ Hconv). cbn [bind].
        destruct (filter _ required_columns); reflexivity.
      * now rewrite (to_datetime_raises _ Hconv).
  - destruct (Pd.has_column df "date") eqn:Hdate; cbn [negb].
    + destruct (forallb (fun c => match c with Pd.Other _ => false | _ => true end)
                (Pd.values df "date")) eqn:Hconv; cbn [negb].
      * rewrite (to_datetime_ok _ Hconv). cbn [bind].
        destruct (filter _ required_columns); reflexivity.
      * now rewrite (to_datetime_raises _ Hconv).
    + reflexivity.
Qed.

(** X8: which error [load_stock_data] raises.  A time cell that does not
    convert raises [ValueError] whatever the header is; otherwise a header
    without [timestamp] and [date] raises the no-time-column [KeyError]
    even when required columns are absent too; otherwise the [KeyError]
    names exactly the absent required columns, in the order open, high,
    low, close, volume.  [load_stock_data] raises nothing else. *)
Theorem X8_load_error_precedence (file_path : string) (df : Pd.DataFrame) :
  (time_converts df = false -> load_stock_data file_path df = Raise ValueError)
  /\ (time_converts df = true ->
      Pd.has_column df "timestamp" = false -> Pd.has_column df "date" = false ->
      load_stock_data file_path df = Raise (KeyError (NoTimeColumn file_path)))
  /\ (time_converts df = true ->
      Pd.has_column df "timestamp" || Pd.has_column df "date" = true ->
      filter (fun col => negb (Pd.has_column df col)) required_columns <> [] ->
      load_stock_data file_path df
      = Raise (KeyError (MissingColumns
                           (filter (fun col => negb (Pd.has_column df col))
                                   required_columns)
                           file_path)))
  /\ (forall e, load_stock_data file_path df = Raise e ->
                e = ValueError \/ exists why, e = KeyError why).
Proof.
  rewrite load_stock_data_outcome. repeat split.
  - now intros ->.
  - now intros -> -> ->.
  - intros -> -> H. cbn [negb].
    destruct (filter _ required_columns); [contradiction | reflexivity].
  - intros e. destruct (negb (time_converts df)); [intros H; injection H as <-; now left|].
    destruct (negb _); [intros H; injection H as <-; eauto|].
    destruct (filter _ required_columns); [discriminate|].
    intros H; injection H as <-; eauto.
Qed.

(** X9: a frame that loads.  Its index holds the converted times of the
    [timestamp] column, or of the [date] column when there is no
    [timestamp] column, one per row and in row order; [timestamp] is no
    longer a column, every other column of the file is kept in place, and
    the five required columns are among them. *)
Theorem X9_loaded_frame (file_path : string) (df : Pd.DataFrame) (loaded : IndexedFrame) :
  load_stock_data file_path df = Ok loaded ->
  index loaded
  = map cell_time (if Pd.has_column df "timestamp" then Pd.values df "timestamp"
                   else Pd.values df "date")
  /\ length (index loaded) = length (time_cells df)
  /\ frame_columns loaded
     = filter (fun c => negb (String.eqb c "timestamp")) (Pd.columns df)
  /\ ~ In "timestamp"%string (frame_columns loaded)
  /\ (forall col, In col required_columns -> In col (frame_columns loaded))
  /\ (forall col, col <> "timestamp"%string ->
                  (In col (frame_columns loaded) <-> In col (Pd.columns df))).
Proof.
  rewrite load_stock_data_outcome.
  destruct (negb (time_converts df)); [discriminate|].
  destruct (Pd.has_column df "timestamp" || Pd.has_column df "date") eqn:Htime;
    cbn [negb]; [|discriminate].
  destruct (filter _ required_columns) eqn:Hmiss; [|discriminate].
  intros H. injection H as <-. cbn [index frame_columns].
  assert (Hcols : forall col, col <> "timestamp"%string ->
            (In col (filter (fun c => negb (String.eqb c "timestamp")) (Pd.columns df))
             <-> In col (Pd.columns df))).
  { intros col Hne. rewrite filter_In. split; [now intros [? _]|].
    intros Hin. split; [assumption|].
    destruct (String.eqb_spec col "timestamp"); [contradiction | reflexivity]. }
  repeat split.
  - unfold time_cells. destruct (Pd.has_column df "timestamp"); [reflexivity|].
    simpl in Htime. now rewrite Htime.
  - now rewrite length_map.
  - intros Hin. apply filter_In in Hin as [_ Hin]. discriminate.
  - intros col Hin. apply Hcols.
    + unfold required_columns in Hin. simpl in Hin.
      intros ->. repeat (destruct Hin as [Hin | Hin]; [discriminate|]). exact Hin.
    + assert (Hhas : Pd.has_column df col = true).
      { destruct (Pd.has_column df col) eqn:Hc; [reflexivity|].
        assert (Hf : In col (filter (fun col => negb (Pd.has_column df col))
                               required_columns)).
        { apply filter_In. split; [assumption | now rewrite Hc]. }
        rewrite Hmiss in Hf. contradiction. }
      unfold Pd.has_column in Hhas. apply existsb_exists in Hhas as (c & Hc & Heq).
      apply String.eqb_eq in Heq. now subst c.
  - apply Hcols; assumption.
  - apply Hcols; assumption.
Qed.

Lemma X9_witness :
  index {| index := [1000; 2000]%Z;
           frame_columns := ["date"; "open"; "high"; "low"; "close"; "volume"]%string;
           frame_values := Pd.values frame_complete |}
  = map cell_time (if Pd.has_column frame_complete "timestamp"
                   then Pd.values frame_complete "timestamp"
                   else Pd.values frame_complete "date").
Proof.
  exact (proj1 (X9_loaded_frame "B_1h.csv" frame_complete _ eq_refl)).
Defined.

(** ** The loading loop of the back-test *)

(** X10: the loading loop of the back-test never reads a file whose name
    does not end in [1h.csv]: output and outcome are those of the loop on
    the files that do, so such a file cannot stop the run, whatever it
    holds. *)
Theorem X10_other_files_ignored (files : list (string * Pd.DataFrame)) :
  load_feeds files
  = load_feeds (filter (fun f => endswith (fst f) "1h.csv") files).
Proof.
  induction files as [|[file_path df] files IH]; [reflexivity|].
  cbn [filter fst load_feeds].
  destruct (endswith file_path "1h.csv") eqn:Hend; [|exact IH].
  cbn [load_feeds]. rewrite Hend, IH. reflexivity.
Qed.

Lemma load_converts (file_path : string) (df : Pd.DataFrame) :
  time_converts df = true ->
  (exists loaded, load_stock_data file_path df = Ok loaded)
  \/ (exists why, load_stock_data file_path df = Raise (KeyError why)).
Proof.
  intros H. pose proof (load_stock_data_columns file_path df H) as Hl.
  destruct (load_stock_data file_path df) as [loaded|e]; [eauto|].
  destruct Hl as [_ [why ->]]. eauto.
Qed.

(** X11: when the time cells convert in every file whose name ends in
    [1h.csv], the loading loop runs to its end.  It prints, file by file in
    walk order, a Loading line for each such file, followed at once by the
    Skipping line if that file did not load; and the engine receives the
    frames that loaded, in the same order. *)
Theorem X11_loading_in_walk_order (files : list (string * Pd.DataFrame)) :
  Forall (fun f => endswith (fst f) "1h.csv" = true -> time_converts (snd f) = true)
         files ->
  load_feeds files = (flat_map lines_for files, Ok (flat_map feeds_for files)).
Proof.
  induction files as [|[file_path df] files IH]; intros Hall; [reflexivity|].
  inversion Hall as [|? ? Hdf Hrest]; subst. cbn [fst snd] in Hdf.
  cbn [load_feeds flat_map]. unfold lines_for at 1, feeds_for at 1. cbn [fst snd].
  rewrite (IH Hrest).
  destruct (endswith file_path "1h.csv"); [|reflexivity].
  destruct (load_converts file_path df (Hdf eq_refl)) as [[loaded ->] | [why ->]];
    reflexivity.
Qed.

Lemma X11_witness :
  load_feeds [("A_1h.csv"%string, frame_without_volume);
              ("notes.txt"%string, frame_bad_time);
              ("B_1h.csv"%string, frame_complete)]
  = (flat_map lines_for [("A_1h.csv"%string, frame_without_volume);
                         ("notes.txt"%string, frame_bad_time);
                         ("B_1h.csv"%string, frame_complete)],
     Ok (flat_map feeds_for [("A_1h.csv"%string, frame_without_volume);
                             ("notes.txt"%string, frame_bad_time);
                             ("B_1h.csv"%string, frame_complete)])).
Proof.
  apply X11_loading_in_walk_order.
  repeat constructor; intros H; try reflexivity; discriminate H.
Defined.

Lemma load_unconvertible (file_path : string) (df : Pd.DataFrame) :
  time_converts df = false -> load_stock_data file_path df = Raise ValueError.
Proof. intros H. rewrite load_stock_data_outcome, H. reflexivity. Qed.

(** X12: the first file ending in [1h.csv] with a time cell that does not
    convert ends the loading loop with [ValueError]: its Loading line is the
    last line printed, no Skipping line follows, and no later file is
    loaded or even announced. *)
Theorem X12_loading_stops_at_bad_time
  (before after : list (string * Pd.DataFrame)) (file_path : string) (df : Pd.DataFrame) :
  Forall (fun f => endswith (fst f) "1h.csv" = true -> time_converts (snd f) = true)
         before ->
  endswith file_path "1h.csv" = true ->
  time_converts df = false ->
  load_feeds (before ++ (file_path, df) :: after)
  = (flat_map lines_for before ++ [Loading file_path], Raise ValueError).
Proof.
  intros Hall Hend Hbad.
  induction before as [|[p d] before IH].
  - cbn [app load_feeds flat_map]. rewrite Hend, (load_unconvertible _ _ Hbad).
    reflexivity.
  - inversion Hall as [|? ? Hd Hrest]; subst. cbn [fst snd] in Hd.
    cbn [app load_feeds flat_map]. unfold lines_for at 1. cbn [fst snd].
    rewrite (IH Hrest).
    destruct (endswith p "1h.csv"); [|reflexivity].
    destruct (load_converts p d (Hd eq_refl)) as [[loaded ->] | [why ->]]; reflexivity.
Qed.

Lemma X12_witness :
  load_feeds ([("A_1h.csv"%string, frame_without_volume)]
              ++ ("B_1h.csv"%string, frame_bad_time)
              :: [("C_1h.csv"%string, frame_complete)])
  = (flat_map lines_for [("A_1h.csv"%string, frame_without_volume)]
     ++ [Loading "B_1h.csv"],
     Raise ValueError).
Proof.
  apply X12_loading_stops_at_bad_time.
  - repeat constructor.
  - reflexivity.
  - reflexivity.
Defined.

(** ** combine_datasets *)

Lemma substring_whole (s : string) : substring 0 (String.length s) s = s.
Proof. induction s as [|c s IH]; simpl; [reflexivity | now rewrite IH]. Qed.

Lemma string_split (s : string) :
  forall k, (k <= String.length s)%nat ->
            s = (substring 0 k s ++ substring k (String.length s - k) s)%string.
Proof.
  induction s as [|c s IH]; intros k Hk.
  - simpl in Hk. assert (k = 0%nat) by lia. subst k. reflexivity.
  - destruct k as [|k].
    + cbn [substring]. rewrite Nat.sub_0_r.
      change (String.length (String c s)) with (S (String.length s)).
      cbn [substring append]. now rewrite substring_whole.
    + simpl in Hk. cbn [substring String.length Nat.sub append].
      f_equal. apply IH. lia.
Qed.

Lemma append_length (a b : string) :
  String.length (a ++ b) = (String.length a + String.length b)%nat.
Proof. induction a as [|c a IH]; simpl; [reflexivity | now rewrite IH]. Qed.

Lemma append_assoc (a b c : string) : ((a ++ b) ++ c = a ++ (b ++ c))%string.
Proof. induction a as [|x a IH]; simpl; [reflexivity | now rewrite IH]. Qed.

Lemma substring_after (a b : string) :
  substring (String.length a) (String.length b) (a ++ b) = b.
Proof.
  induction a as [|c a IH]; simpl; [apply substring_whole | exact IH].
Qed.

(** [s.endswith(suffix)] holds exactly for the strings [pre + suffix]. *)
Lemma endswith_iff (s suffix : string) :
  endswith s suffix = true <-> exists pre, s = (pre ++ suffix)%string.
Proof.
  unfold endswith. split.
  - intros H. apply andb_prop in H as [Hle Heq].
    apply Nat.leb_le in Hle. apply String.eqb_eq in Heq.
    exists (substring 0 (String.length s - String.length suffix) s).
    assert (Hk : (String.length s - (String.length s - String.length suffix))%nat
                 = String.length suffix) by lia.
    assert (Hs : (String.length s - String.length suffix <= String.length s)%nat) by lia.
    apply string_split in Hs. rewrite Hk, Heq in Hs. exact Hs.
  - intros [pre ->]. rewrite append_length. apply andb_true_intro. split.
    + apply Nat.leb_le. lia.
    + replace (String.length pre + String.length suffix - String.length suffix)%nat
        with (String.length pre) by lia.
      rewrite substring_after. apply String.eqb_refl.
Qed.

Lemma endswith_shorter (s a b : string) :
  endswith s (a ++ b) = true -> endswith s b = true.
Proof.
  rewrite !endswith_iff. intros [pre ->]. exists (pre ++ a)%string.
  now rewrite append_assoc.
Qed.

Lemma load_accepts (file_path : string) (df : Pd.DataFrame) :
  time_converts df = true ->
  (has_all_columns df = true
   /\ exists loaded, load_stock_data file_path df = Ok loaded
                     /\ index loaded = map cell_time (time_cells df)
                     /\ frame_columns loaded
                        = filter (fun c => negb (String.eqb c "timestamp")) (Pd.columns df))
  \/ (has_all_columns df = false
      /\ exists why, load_stock_data file_path df = Raise (KeyError why)).
Proof.
  intros H. pose proof (load_stock_data_columns file_path df H) as Hl.
  rewrite load_stock_data_outcome in *. rewrite H in *. cbn [negb] in *.
  destruct (negb (Pd.has_column df "timestamp" || Pd.has_column df "date")).
  - right. destruct Hl as [Hl _]. eauto.
  - destruct (filter _ required_columns).
    + left. split; [assumption|]. eexists. repeat split.
    + right. destruct Hl as [Hl _]. eauto.
Qed.

Lemma combine_loop_rows (files : list (string * Pd.DataFrame)) :
  Forall (fun f => endswith (fst f) ".csv" = true -> time_converts (snd f) = true)
         files ->
  forall combined_data,
  exists combined,
    snd (combine_loop files combined_data) = Ok combined
    /\ combined_index combined = combined_index combined_data ++ flat_map rows_of files
    /\ (~ In "timestamp"%string (combined_columns combined_data) ->
        ~ In "timestamp"%string (combined_columns combined))
    /\ (forall col, In col (combined_columns combined_data) ->
                    In col (combined_columns combined)).
Proof.
  induction files as [|[file_path df] files IH]; intros Hall combined_data.
  - exists combined_data. cbn [combine_loop snd flat_map]. rewrite app_nil_r. auto.
  - inversion Hall as [|? ? Hdf Hrest]; subst. cbn [fst snd] in Hdf.
    cbn [combine_loop flat_map]. unfold rows_of at 1. cbn [fst snd].
    destruct (endswith file_path ".csv") eqn:Hend; cbn [andb]; [|now apply IH].
    destruct (load_accepts file_path df (Hdf eq_refl))
      as [(-> & loaded & -> & Hidx & Hcols) | (-> & why & ->)].
    + destruct (IH Hrest (concat_frames combined_data loaded))
        as (combined & Hc & Hi & Hts & Hsub).
      destruct (combine_loop files (concat_frames combined_data loaded)) as [out r].
      cbn [snd] in *. exists combined. split; [assumption|]. split; [|split].
      * rewrite Hi. cbn [concat_frames combined_index]. now rewrite Hidx, app_assoc.
      * intros Hno. apply Hts. cbn [concat_frames combined_columns].
        rewrite in_app_iff, filter_In, Hcols, filter_In. intros [? | [[_ Hd] _]]; [auto|].
        discriminate.
      * intros col Hcol. apply Hsub. cbn [concat_frames combined_columns].
        apply in_app_iff. now left.
    + destruct (IH Hrest combined_data) as (combined & Hc & Hi & Hts & Hsub).
      destruct (combine_loop files combined_data) as [out r].
      cbn [snd] in *. exists combined. auto.
Qed.

(** X13: when the time cells convert in every file whose name ends in
    [.csv], [combine_datasets] returns a frame whose index is the times of
    the files that load, file after file in walk order: rows are appended,
    never sorted and never merged, and [timestamp] is not among the
    columns. *)
Theorem X13_combine_appends_rows (files : list (string * Pd.DataFrame)) :
  Forall (fun f => endswith (fst f) ".csv" = true -> time_converts (snd f) = true)
         files ->
  exists combined,
    snd (combine_datasets files) = Ok combined
    /\ combined_index combined = flat_map rows_of files
    /\ ~ In "timestamp"%string (combined_columns combined).
Proof.
  intros Hall. unfold combine_datasets.
  destruct (combine_loop_rows files Hall empty_frame) as (combined & Hc & Hi & Hts & _).
  exists combined. split; [assumption|]. split; [exact Hi|].
  apply Hts. intros [].
Qed.

Lemma X13_witness :
  exists combined,
    snd (combine_datasets [("A.csv"%string, frame_complete);
                           ("B.csv"%string, frame_without_volume);
                           ("C.csv"%string, frame_complete)]) = Ok combined
    /\ combined_index combined = [1000; 2000; 1000; 2000]%Z.
Proof.
  destruct (X13_combine_appends_rows
              [("A.csv"%string, frame_complete);
               ("B.csv"%string, frame_without_volume);
               ("C.csv"%string, frame_complete)])
    as (combined & Hc & Hi & _).
  - repeat constructor.
  - exists combined. split; [exact Hc | exact Hi].
Defined.

(** X14: every frame that the back-test hands to the engine is part of
    what [combine_datasets] combines from the same files: a name that ends
    in [1h.csv] ends in [.csv], so all the times of that frame occur in the
    combined index. *)
Theorem X14_backtest_files_are_combined
  (files : list (string * Pd.DataFrame)) (loaded : IndexedFrame) :
  Forall (fun f => endswith (fst f) ".csv" = true -> time_converts (snd f) = true)
         files ->
  In loaded (flat_map feeds_for files) ->
  exists combined,
    snd (combine_datasets files) = Ok combined
    /\ incl (index loaded) (combined_index combined).
Proof.
  intros Hall Hin. unfold combine_datasets.
  destruct (combine_loop_rows files Hall empty_frame) as (combined & Hc & Hi & _).
  exists combined. split; [assumption|]. rewrite Hi. cbn [empty_frame combined_index app].
  apply in_flat_map in Hin as ([file_path df] & Hf & Hl).
  unfold feeds_for in Hl. cbn [fst snd] in Hl.
  destruct (endswith file_path "1h.csv") eqn:Hend; [|contradiction].
  assert (Hcsv : endswith file_path ".csv" = true)
    by (apply (endswith_shorter file_path "1h" ".csv"); exact Hend).
  rewrite Forall_forall in Hall. specialize (Hall _ Hf Hcsv). cbn [snd] in Hall.
  destruct (load_accepts file_path df Hall)
    as [(Hcols & fr & Hfr & Hidx & _) | (_ & why & Hfr)]; rewrite Hfr in Hl.
  - destruct Hl as [<- | []]. intros t Ht. apply in_flat_map.
    exists (file_path, df). split; [assumption|].
    unfold rows_of. cbn [fst snd]. rewrite Hcsv, Hcols. cbn [andb]. now rewrite <- Hidx.
  - contradiction.
Qed.

Lemma X14_witness :
  exists combined,
    snd (combine_datasets [("A_1h.csv"%string, frame_complete);
                           ("B_1d.csv"%string, frame_complete)]) = Ok combined
    /\ incl (index {| index := [1000; 2000]%Z;
                      frame_columns :=
                        ["date"; "open"; "high"; "low"; "close"; "volume"]%string;
                      frame_values := Pd.values frame_complete |})
            (combined_index combined).
Proof.
  apply (X14_backtest_files_are_combined
           [("A_1h.csv"%string, frame_complete); ("B_1d.csv"%string, frame_complete)]).
  - repeat constructor.
  - left. reflexivity.
Defined.

(* ================================================================== *)
(** * Further properties of the strategy *)

(** ** notify_trade *)

Lemma notify_trade_fold (notifications : list Trade) :
  forall trade_pnls,
    fold_left notify_trade notifications trade_pnls
    = trade_pnls ++ map pnl (filter isclosed notifications).
Proof.
  induction notifications as [|t ts IH]; intros acc; cbn [fold_left filter].
  - now rewrite app_nil_r.
  - rewrite IH. unfold notify_trade. destruct (isclosed t); cbn [map].
    + now rewrite <- app_assoc.
    + reflexivity.
Qed.

(** X15: [self.trade_pnls] holds the results of the closed trades and of
    nothing else, in the order in which the trades were notified: a
    notification of a trade that is still open leaves the list as it is. *)
Theorem X15_trade_pnls_are_closed_trades (notifications : list Trade) :
  trade_pnls_after notifications = map pnl (filter isclosed notifications)
  /\ length (trade_pnls_after notifications)
     = Pd.count_if isclosed notifications.
Proof.
  unfold trade_pnls_after, Pd.count_if. rewrite notify_trade_fold. cbn [app].
  split; [reflexivity | apply length_map].
Qed.

(** ** The signal depends on the order of the values only *)

Lemma count_if_map {A B : Type} (p : B -> bool) (f : A -> B) (l : list A) :
  Pd.count_if p (map f l) = Pd.count_if (fun a => p (f a)) l.
Proof.
  unfold Pd.count_if. induction l as [|a l IH]; cbn [map filter]; [reflexivity|].
  destruct (p (f a)); cbn [length]; now rewrite IH.
Qed.

Lemma count_if_ext_in {A : Type} (p q : A -> bool) (l : list A) :
  (forall a, In a l -> p a = q a) -> Pd.count_if p l = Pd.count_if q l.
Proof. intros H. unfold Pd.count_if. f_equal. now apply filter_ext_in. Qed.

Lemma increasing_compare (f : R -> R) (l : list R) :
  (forall a b, In a l -> In b l -> a < b -> f a < f b) ->
  forall w v, In w l -> In v l ->
              Rltb (f w) (f v) = Rltb w v /\ Reqb (f w) (f v) = Reqb w v.
Proof.
  intros Hf w v Hw Hv.
  destruct (Rtotal_order w v) as [Hlt | [-> | Hgt]].
  - pose proof (Hf w v Hw Hv Hlt).
    rewrite !Rltb_true, !Reqb_false by lra. split; reflexivity.
  - rewrite !Rltb_false, !Reqb_true by lra. split; reflexivity.
  - pose proof (Hf v w Hv Hw Hgt).
    rewrite !Rltb_false, !Reqb_false by lra. split; reflexivity.
Qed.


(** a strictly increasing change of the values keeps every rank *)
Lemma average_ranks_increasing (f : R -> R) (l : list R) :
  (forall a b, In a l -> In b l -> a < b -> f a < f b) ->
  average_ranks (map f l) = average_ranks l.
Proof.
  intros Hf. unfold average_ranks. rewrite map_map. apply map_ext_in.
  intros v Hv. unfold average_rank. rewrite !count_if_map.
  rewrite (count_if_ext_in _ (fun w => Rltb w v))
    by (intros w Hw; apply (increasing_compare f l Hf w v Hw Hv)).
  rewrite (count_if_ext_in (fun a => Reqb (f a) (f v)) (fun w => Reqb w v))
    by (intros w Hw; apply (increasing_compare f l Hf w v Hw Hv)).
  reflexivity.
Qed.



(** X16: the signal depends on the order of the values only.  If the
    open values of one window are those of another changed by a strictly
    increasing function, and likewise the volume values (another unit, a
    price split, a logarithm), the two windows give the same signal. *)
Theorem X16_signal_keeps_under_increasing_change
  (self self' : Alpha3Strategy) (os vs : list R) (f g : R -> R) :
  mapM (fun i => Bt.line Bt.open (data self) (- Z.of_nat i))
       (Py.range (lookback_period self)) = Ok (map Fin os) ->
  mapM (fun i => Bt.line Bt.volume (data self) (- Z.of_nat i))
       (Py.range (lookback_period self)) = Ok (map Fin vs) ->
  mapM (fun i => Bt.line Bt.open (data self') (- Z.of_nat i))
       (Py.range (lookback_period self')) = Ok (map Fin (map f os)) ->
  mapM (fun i => Bt.line Bt.volume (data self') (- Z.of_nat i))
       (Py.range (lookback_period self')) = Ok (map Fin (map g vs)) ->
  (forall a b, In a os -> In b os -> a < b -> f a < f b) ->
  (forall a b, In a vs -> In b vs -> a < b -> g a < g b) ->
  alpha_signal self' = alpha_signal self.
Proof.
  intros Ho Hv Ho' Hv' Hf Hg.
  rewrite (alpha_signal_finite self os vs Ho Hv).
  rewrite (alpha_signal_finite self' _ _ Ho' Hv').
  now rewrite (average_ranks_increasing f os Hf), (average_ranks_increasing g vs Hg).
Qed.

Lemma X16_witness :
  alpha_signal (start 3 scaled_bars) = alpha_signal (start 3 rising_bars).
Proof.
  apply (X16_signal_keeps_under_increasing_change
           (start 3 rising_bars) (start 3 scaled_bars)
           [1; 3; 2] [1; 3; 2] (fun x => x * 10) (fun x => x + 7)
           eq_refl eq_refl eq_refl eq_refl); intros; lra.
Defined.

(** ** Windows in which open and volume move together, or against each other *)













(** ** Whole runs *)

Lemma next_no_spread (self : Alpha3Strategy) (opens volumes : list num) :
  mapM (fun i => Bt.line Bt.open (data self) (- Z.of_nat i))
       (Py.range (lookback_period self)) = Ok opens ->
  mapM (fun i => Bt.line Bt.volume (data self) (- Z.of_nat i))
       (Py.range (lookback_period self)) = Ok volumes ->
  (forall a b, In a opens -> In b opens -> a = b)
  \/ (forall a b, In a volumes -> In b volumes -> a = b) ->
  next self = Ok [].
Proof.
  intros Ho Hv Hsame. unfold next.
  rewrite (alpha_signal_of_reads self _ _ Ho Hv).
  rewrite corr_no_spread; [reflexivity | apply rank_nan_or_real .. |].
  destruct Hsame as [H | H]; [left | right]; now apply rank_const.
Qed.

Lemma wrapped_In (L i : nat) (values : list num) (w : num) :
  values <> [] -> In w (wrapped L i values) -> In w values.
Proof.
  intros Hne Hw. unfold wrapped in Hw. apply in_map_iff in Hw as (k & <- & _).
  apply nth_In.
  assert (Hn : (0 < Z.of_nat (length values))%Z).
  { destruct values; [contradiction | simpl; lia]. }
  pose proof (Z.mod_pos_bound (Z.of_nat i - Z.of_nat k) _ Hn). lia.
Qed.

Lemma signal_no_spread (self : Alpha3Strategy) (opens volumes : list num) :
  mapM (fun i => Bt.line Bt.open (data self) (- Z.of_nat i))
       (Py.range (lookback_period self)) = Ok opens ->
  mapM (fun i => Bt.line Bt.volume (data self) (- Z.of_nat i))
       (Py.range (lookback_period self)) = Ok volumes ->
  (forall a b, In a opens -> In b opens -> a = b)
  \/ (forall a b, In a volumes -> In b volumes -> a = b) ->
  alpha_signal self = Ok NaN.
Proof.
  intros Ho Hv Hsame.
  rewrite (alpha_signal_of_reads self _ _ Ho Hv).
  rewrite corr_no_spread; [reflexivity | apply rank_nan_or_real .. |].
  destruct Hsame as [H | H]; [left | right]; now apply rank_const.
Qed.

(** On one feed, from the bar before bar [i]: [n] ticks on which [next]
    issues nothing. *)
Lemma run_ticks_quiet (L : nat) (bars : list Bt.Bar) (p : Z)
  (cash : nat -> nat -> bool) :
  (forall i, (i < length bars)%nat ->
             next {| lookback_period := L;
                     data := {| Bt.bars := bars; Bt.idx := Z.of_nat i |};
                     position := p |} = Ok []) ->
  forall n s i, (i + n <= length bars)%nat ->
    run_ticks (map (fun k => {| moved := true; ready := true; funded := cash k |})
                   (seq s n))
              {| strategy := {| lookback_period := L;
                                data := {| Bt.bars := bars; Bt.idx := Z.of_nat i - 1 |};
                                position := p |};
                 waiting := [] |}
    = Ok ([], {| strategy := {| lookback_period := L;
                                data := {| Bt.bars := bars;
                                           Bt.idx := Z.of_nat (i + n) - 1 |};
                                position := p |};
                 waiting := [] |}).
Proof.
  intros Hq. induction n as [|n IH]; intros s i Hi.
  - cbn [seq map run_ticks]. now rewrite Nat.add_0_r.
  - cbn [seq map run_ticks].
    rewrite (on_tick_new_bar _ L bars (Z.of_nat i - 1) (Z.of_nat i) p [] []);
      [| reflexivity | reflexivity | lia | cbn [execute]; apply Hq; lia ].
    cbn [bind fst snd execute].
    replace (Z.of_nat i) with (Z.of_nat (S i) - 1)%Z by lia.
    rewrite IH by lia. cbn [bind fst snd app].
    now replace (S i + n)%nat with (i + S n)%nat by lia.
Qed.

Lemma quiet_run (L : nat) (bars : list Bt.Bar) (cash : nat -> nat -> bool) :
  (forall i, (i < length bars)%nat ->
             next {| lookback_period := L;
                     data := {| Bt.bars := bars; Bt.idx := Z.of_nat i |};
                     position := 0 |} = Ok []) ->
  run L bars cash
  = Ok ([], {| strategy := {| lookback_period := L;
                              data := {| Bt.bars := bars;
                                         Bt.idx := Z.of_nat (length bars) - 1 |};
                              position := 0 |};
               waiting := [] |}).
Proof.
  intros Hq. unfold run, one_feed, boot.
  exact (run_ticks_quiet L bars 0 cash Hq (length bars) 0 0 (le_n _)).
Qed.

Lemma short_list_const {A : Type} (l : list A) :
  (length l <= 1)%nat -> forall a b, In a l -> In b l -> a = b.
Proof.
  destruct l as [|x [|y l]]; simpl; intros H a b Ha Hb.
  - contradiction.
  - destruct Ha as [<- | []], Hb as [<- | []]. reflexivity.
  - lia.
Qed.

Lemma wrapped_length (L i : nat) (values : list num) :
  length (wrapped L i values) = L.
Proof. unfold wrapped, Py.range. now rewrite length_map, length_seq. Qed.

(** X19: with a look-back period of 0 or 1 the strategy never trades: on
    every bar of every series the window holds at most one value, the
    signal is NaN, and the run ends without an order and without an
    error, the position still flat, whatever the broker's cash. *)
Theorem X19_short_lookback_never_trades
  (lookback : nat) (bars : list Bt.Bar) (cash : nat -> nat -> bool) :
  (lookback <= 1)%nat ->
  run lookback bars cash
  = Ok ([], {| strategy := {| lookback_period := lookback;
                              data := {| Bt.bars := bars;
                                         Bt.idx := Z.of_nat (length bars) - 1 |};
                              position := 0 |};
               waiting := [] |})
  /\ forall i p, (i < length bars)%nat ->
       alpha_signal {| lookback_period := lookback;
                       data := {| Bt.bars := bars; Bt.idx := Z.of_nat i |};
                       position := p |} = Ok NaN.
Proof.
  intros HL.
  assert (Hreads : forall i p (field : Bt.Bar -> num), (i < length bars)%nat ->
            mapM (fun k => Bt.line field
                             (data {| lookback_period := lookback;
                                      data := {| Bt.bars := bars; Bt.idx := Z.of_nat i |};
                                      position := p |}) (- Z.of_nat k))
                 (Py.range lookback)
            = Ok (wrapped lookback i (map field bars))).
  { intros i p field Hi. apply reads_wrap; cbn [data Bt.bars Bt.idx]; auto; lia. }
  split.
  - apply quiet_run. intros i Hi.
    apply (next_no_spread _ (wrapped lookback i (map Bt.open bars))
                            (wrapped lookback i (map Bt.volume bars))).
    + now apply Hreads.
    + now apply Hreads.
    + left. apply short_list_const. now rewrite wrapped_length.
  - intros i p Hi.
    apply (signal_no_spread _ (wrapped lookback i (map Bt.open bars))
                              (wrapped lookback i (map Bt.volume bars))).
    + now apply Hreads.
    + now apply Hreads.
    + left. apply short_list_const. now rewrite wrapped_length.
Qed.

Lemma X19_witness :
  run 1 swing_bars (fun _ _ => true)
  = Ok ([], {| strategy := {| lookback_period := 1;
                              data := {| Bt.bars := swing_bars; Bt.idx := 2 |};
                              position := 0 |};
               waiting := [] |}).
Proof.
  exact (proj1 (X19_short_lookback_never_trades 1 swing_bars (fun _ _ => true) (le_n 1))).
Defined.

(** X20: on a series whose open never changes, or whose volume never
    changes, a run with a look-back period of at most the number of bars
    plus one issues no order at all: every window, wrapped or not, has no
    spread on that side. *)
Theorem X20_flat_series_never_trades
  (lookback : nat) (bars : list Bt.Bar) (cash : nat -> nat -> bool) :
  (lookback <= length bars + 1)%nat ->
  (forall b b', In b bars -> In b' bars -> Bt.open b = Bt.open b')
  \/ (forall b b', In b bars -> In b' bars -> Bt.volume b = Bt.volume b') ->
  run lookback bars cash
  = Ok ([], {| strategy := {| lookback_period := lookback;
                              data := {| Bt.bars := bars;
                                         Bt.idx := Z.of_nat (length bars) - 1 |};
                              position := 0 |};
               waiting := [] |}).
Proof.
  intros HL Hflat. apply quiet_run. intros i Hi.
  assert (Hne : forall field : Bt.Bar -> num, map field bars <> []).
  { intros field. destruct bars; [simpl in Hi; lia | discriminate]. }
  apply (next_no_spread _ (wrapped lookback i (map Bt.open bars))
                          (wrapped lookback i (map Bt.volume bars))).
  - apply reads_wrap; cbn [data Bt.bars Bt.idx]; auto; lia.
  - apply reads_wrap; cbn [data Bt.bars Bt.idx]; auto; lia.
  - destruct Hflat as [H | H]; [left | right]; intros a b Ha Hb;
      apply wrapped_In in Ha, Hb; try apply Hne;
      apply in_map_iff in Ha as (ba & <- & Hba);
      apply in_map_iff in Hb as (bb & <- & Hbb); now apply H.
Qed.

Lemma X20_witness :
  run 3 still_bars (fun _ _ => true)
  = Ok ([], {| strategy := {| lookback_period := 3;
                              data := {| Bt.bars := still_bars; Bt.idx := 2 |};
                              position := 0 |};
               waiting := [] |}).
Proof.
  apply (X20_flat_series_never_trades 3 still_bars (fun _ _ => true)).
  - simpl. lia.
  - left. intros b b' Hb Hb'. simpl in Hb, Hb'.
    destruct Hb as [<- | [<- | [<- | []]]]; destruct Hb' as [<- | [<- | [<- | []]]];
      reflexivity.
Defined.

Lemma alpha_signal_ok (self : Alpha3Strategy) (i : nat) :
  Bt.idx (data self) = Z.of_nat i ->
  (i < length (Bt.bars (data self)))%nat ->
  (lookback_period self <= i + 1 + length (Bt.bars (data self)))%nat ->
  exists s, alpha_signal self = Ok s.
Proof.
  intros Hidx Hi HL. eexists. apply alpha_signal_of_reads; apply reads_wrap; eassumption.
Qed.

Lemma run_ticks_total (L : nat) (bars : list Bt.Bar) (cash : nat -> nat -> bool) :
  (L <= length bars + 1)%nat ->
  forall n s i p w, (i + n <= length bars)%nat ->
    exists r,
      run_ticks (map (fun k => {| moved := true; ready := true; funded := cash k |})
                     (seq s n))
                {| strategy := {| lookback_period := L;
                                  data := {| Bt.bars := bars; Bt.idx := Z.of_nat i - 1 |};
                                  position := p |};
                   waiting := w |} = Ok r.
Proof.
  intros HL. induction n as [|n IH]; intros s i p w Hi.
  - eexists. reflexivity.
  - cbn [seq map run_ticks].
    destruct (alpha_signal_ok {| lookback_period := L;
                                 data := {| Bt.bars := bars; Bt.idx := Z.of_nat i |};
                                 position := execute (cash s) 0 w p |} i) as [sig Hs];
      cbn [data Bt.bars Bt.idx lookback_period]; auto; try lia.
    rewrite (on_tick_new_bar _ L bars (Z.of_nat i - 1) (Z.of_nat i) p w
               (orders_for sig (execute (cash s) 0 w p)));
      [| reflexivity | reflexivity | lia | exact (next_of_signal _ _ Hs) ].
    cbn [bind fst snd funded].
    replace (Z.of_nat i) with (Z.of_nat (S i) - 1)%Z by lia.
    destruct (IH (S s) (S i) (execute (cash s) 0 w p)
                 (orders_for sig (execute (cash s) 0 w p))) as [r ->]; [lia|].
    cbn [bind]. eauto.
Qed.

(** X21: a run on a series with at least one bar ends normally exactly
    when the look-back period is at most the number of bars plus one; with
    a longer look-back period the very first call of [next] raises
    [IndexError] and the run ends there. *)
Theorem X21_run_needs_short_lookback
  (lookback : nat) (b : Bt.Bar) (bs : list Bt.Bar) (cash : nat -> nat -> bool) :
  ((exists r, run lookback (b :: bs) cash = Ok r)
   <-> (lookback <= length (b :: bs) + 1)%nat)
  /\ ((length (b :: bs) + 1 < lookback)%nat ->
      next (start lookback (b :: bs)) = Raise IndexError
      /\ run lookback (b :: bs) cash = Raise IndexError).
Proof.
  assert (Hlong : (length (b :: bs) + 1 < lookback)%nat ->
                  next (start lookback (b :: bs)) = Raise IndexError
                  /\ run lookback (b :: bs) cash = Raise IndexError).
  { intros HL.
    assert (Hn : next (start lookback (b :: bs)) = Raise IndexError).
    { unfold next, alpha_signal.
      rewrite (reads_raise Bt.open (data (start lookback (b :: bs))) _ 0);
        cbn [start data Bt.bars Bt.idx lookback_period]; auto; lia. }
    split; [exact Hn|]. unfold run, one_feed, boot.
    cbn [length seq map run_ticks]. unfold on_tick, arrive.
    cbn [moved ready funded strategy waiting lookback_period data position
         Bt.bars Bt.idx execute].
    change (-1 + 1)%Z with 0%Z. unfold start in Hn. now rewrite Hn. }
  split; [|exact Hlong]. split.
  - intros [r Hr].
    destruct (Nat.le_gt_cases lookback (length (b :: bs) + 1)) as [|Hgt]; [assumption|].
    destruct (Hlong Hgt) as [_ Hraise]. congruence.
  - intros HL. unfold run, one_feed, boot.
    apply (run_ticks_total lookback (b :: bs) cash HL (length (b :: bs)) 0 0 0 []). lia.
Qed.

(** *** One feed: one order at a time *)








Lemma mapM_nth {A B : Type} (f : A -> result B) (l : list A) (da : A) (db : B) :
  forall bs k, mapM f l = Ok bs -> (k < length l)%nat ->
               f (nth k l da) = Ok (nth k bs db).
Proof.
  induction l as [|a l IH]; intros bs k H Hk; [simpl in Hk; lia|].
  cbn [mapM] in H. destruct (f a) as [b|] eqn:Ha; [|discriminate]. cbn [bind] in H.
  destruct (mapM f l) as [bs'|]; [|discriminate]. cbn [bind] in H.
  injection H as <-. destruct k as [|k]; [exact Ha|].
  cbn [nth]. apply IH; [reflexivity | simpl in Hk; lia].
Qed.

Lemma read_before_start (field : Bt.Bar -> num) (data : Bt.DataFeed) (i k : nat) :
  Bt.idx data = Z.of_nat i ->
  (i < k)%nat -> (k < length (Bt.bars data))%nat ->
  Bt.line field data (- Z.of_nat k)
  = Ok (nth (length (Bt.bars data) + i - k) (map field (Bt.bars data)) NaN).
Proof.
  intros Hidx Hik HkN. unfold Bt.line. rewrite Hidx.
  rewrite (index_wraps _ _ NaN) by (rewrite length_map; lia).
  rewrite length_map. do 2 f_equal.
  replace ((Z.of_nat i + - Z.of_nat k) mod Z.of_nat (length (Bt.bars data)))%Z
    with (Z.of_nat (length (Bt.bars data) + i - k)); [apply Nat2Z.id|].
  apply Z.mod_unique with (-1)%Z; lia.
Qed.

(** X23: look-ahead on the first bars.  At bar [i], the read [k] bars
    back with [i < k < N] (further back than bar 0) returns the value of
    bar [N + i - k] of the series, a bar after the current one: the signals
    of the first [lookback_period - 1] bars use values from the end of the
    series. *)
Theorem X23_early_bars_read_later_bars
  (self : Alpha3Strategy) (i k : nat) (opens volumes : list num) :
  Bt.idx (data self) = Z.of_nat i ->
  mapM (fun j => Bt.line Bt.open (data self) (- Z.of_nat j))
       (Py.range (lookback_period self)) = Ok opens ->
  mapM (fun j => Bt.line Bt.volume (data self) (- Z.of_nat j))
       (Py.range (lookback_period self)) = Ok volumes ->
  (i < k)%nat -> (k < lookback_period self)%nat ->
  (k < length (Bt.bars (data self)))%nat ->
  nth k opens NaN
  = nth (length (Bt.bars (data self)) + i - k) (map Bt.open (Bt.bars (data self))) NaN
  /\ nth k volumes NaN
     = nth (length (Bt.bars (data self)) + i - k)
           (map Bt.volume (Bt.bars (data self))) NaN
  /\ (i < length (Bt.bars (data self)) + i - k < length (Bt.bars (data self)))%nat.
Proof.
  intros Hidx Ho Hv Hik HkL HkN.
  assert (Hread : forall (field : Bt.Bar -> num) values,
            mapM (fun j => Bt.line field (data self) (- Z.of_nat j))
                 (Py.range (lookback_period self)) = Ok values ->
            nth k values NaN
            = nth (length (Bt.bars (data self)) + i - k)
                  (map field (Bt.bars (data self))) NaN).
  { intros field values Hvals.
    pose proof (mapM_nth _ _ 0%nat NaN values k Hvals) as Hk.
    unfold Py.range in Hk. rewrite length_seq, seq_nth in Hk by assumption.
    specialize (Hk HkL). cbn [Nat.add] in Hk.
    rewrite (read_before_start field (data self) i k Hidx Hik HkN) in Hk.
    now injection Hk. }
  split; [now apply Hread | split; [now apply Hread | lia]].
Qed.

Lemma X23_witness :
  nth 1 [Fin 1; Fin 3; Fin 2] NaN
  = nth (length (Bt.bars (data (start 3 rising_bars))) + 0 - 1)
        (map Bt.open (Bt.bars (data (start 3 rising_bars)))) NaN.
Proof.
  exact (proj1 (X23_early_bars_read_later_bars
                  (start 3 rising_bars) 0 1 [Fin 1; Fin 3; Fin 2] [Fin 1; Fin 3; Fin 2]
                  eq_refl eq_refl eq_refl (le_n 1) (le_S _ _ (le_n 2))
                  (le_S _ _ (le_n 2)))).
Defined.

(* ================================================================== *)
(** * The report and the order of the trades *)

Lemma filter_perm {A : Type} (p : A -> bool) (l l' : list A) :
  Permutation l l' -> Permutation (filter p l) (filter p l').
Proof.
  induction 1; cbn [filter].
  - constructor.
  - destruct (p x); [now constructor | assumption].
  - destruct (p x), (p y); try reflexivity. constructor.
  - etransitivity; eassumption.
Qed.

Lemma Rmin_list_least (x : R) (l : list R) :
  In (Rmin_list x l) (x :: l) /\ forall a, In a (x :: l) -> Rmin_list x l <= a.
Proof.
  unfold Rmin_list. induction l as [|b l [IHin IHle]]; cbn [fold_right].
  - split; [now left|]. intros a [<- | []]. lra.
  - split.
    + set (m := fold_right Rmin x l) in *. unfold Rmin. destruct (Rle_dec b m).
      * right; now left.
      * destruct IHin as [<- | Hin]; [now left | right; now right].
    + intros a [<- | [<- | Ha]].
      * eapply Rle_trans; [apply Rmin_r | apply IHle; now left].
      * apply Rmin_l.
      * eapply Rle_trans; [apply Rmin_r | apply IHle; now right].
Qed.

Lemma Rmax_list_greatest (x : R) (l : list R) :
  In (Rmax_list x l) (x :: l) /\ forall a, In a (x :: l) -> a <= Rmax_list x l.
Proof.
  unfold Rmax_list. induction l as [|b l [IHin IHle]]; cbn [fold_right].
  - split; [now left|]. intros a [<- | []]. lra.
  - split.
    + set (m := fold_right Rmax x l) in *. unfold Rmax. destruct (Rle_dec b m).
      * destruct IHin as [<- | Hin]; [now left | right; now right].
      * right; now left.
    + intros a [<- | [<- | Ha]].
      * eapply Rle_trans; [apply IHle; now left | apply Rmax_r].
      * apply Rmax_l.
      * eapply Rle_trans; [apply IHle; now right | apply Rmax_r].
Qed.

Lemma max_drawdown_perm (l l' : list R) :
  Permutation l l' -> max_drawdown_of (map Fin l) = max_drawdown_of (map Fin l').
Proof.
  intros H. destruct l as [|x l].
  - apply Permutation_nil in H. now subst.
  - destruct l' as [|y l'].
    { apply Permutation_sym, Permutation_nil in H. discriminate. }
    cbn [map]. rewrite !max_drawdown_Fin.
    destruct (Rmin_list_least x l) as [Hin Hle].
    destruct (Rmin_list_least y l') as [Hin' Hle'].
    destruct (Rmax_list_greatest x l) as [Hxin Hxle].
    destruct (Rmax_list_greatest y l') as [Hxin' Hxle'].
    assert (Emin : Rmin_list x l = Rmin_list y l').
    { apply Rle_antisym.
      - apply Hle. apply Permutation_in with (y :: l'); [now apply Permutation_sym | assumption].
      - apply Hle'. apply Permutation_in with (x :: l); assumption. }
    assert (Emax : Rmax_list x l = Rmax_list y l').
    { apply Rle_antisym.
      - apply Hxle'. apply Permutation_in with (x :: l); assumption.
      - apply Hxle. apply Permutation_in with (y :: l'); [now apply Permutation_sym | assumption]. }
    now rewrite Emin, Emax.
Qed.

Lemma hit_ratio_perm (l l' : list num) :
  Permutation l l' -> hit_ratio_of l = hit_ratio_of l'.
Proof.
  intros H. unfold hit_ratio_of, Pd.count_if.
  rewrite (Permutation_length H).
  now rewrite (Permutation_length (filter_perm (fun pnl => F.gtb pnl (Fin 0)) _ _ H)).
Qed.

(** X24: the order in which the trades were closed matters for the Sharpe
    and Sortino lines at most: two runs with the same final value and the
    same trade results in any order end the same way and print the same
    value, total return, drawdown, trade count and hit ratio. *)
Theorem X24_order_of_trades (cash cash' value : num) (pnls pnls' : list R) :
  Permutation pnls pnls' ->
  snd (generate_performance_report
         {| startingcash := cash; getvalue := value; trade_pnls := map Fin pnls |})
  = snd (generate_performance_report
           {| startingcash := cash'; getvalue := value; trade_pnls := map Fin pnls' |})
  /\ forall k, k <> 2%nat -> k <> 3%nat ->
       nth_error (fst (generate_performance_report
                         {| startingcash := cash; getvalue := value;
                            trade_pnls := map Fin pnls |})) k
       = nth_error (fst (generate_performance_report
                           {| startingcash := cash'; getvalue := value;
                              trade_pnls := map Fin pnls' |})) k.
Proof.
  intros H. unfold generate_performance_report. cbn [getvalue trade_pnls].
  assert (Hd : Permutation (map (fun pnl => pnl / 1000000) pnls)
                           (map (fun pnl => pnl / 1000000) pnls'))
    by now apply Permutation_map.
  rewrite !daily_returns_Fin.
  rewrite (max_drawdown_perm _ _ Hd).
  rewrite (hit_ratio_perm (map Fin pnls) (map Fin pnls')) by now apply Permutation_map.
  rewrite !length_map, (Permutation_length H).
  destruct (max_drawdown_of _) as [max_drawdown|e]; cbn [fst snd].
  - split; [reflexivity|]. intros k H2 H3.
    destruct k as [|[|[|[|k]]]]; try reflexivity; contradiction.
  - split; [reflexivity|]. intros k H2 H3.
    destruct k as [|[|[|[|k]]]]; try reflexivity; contradiction.
Qed.

Lemma X24_witness :
  snd (generate_performance_report
         {| startingcash := Fin 1000000; getvalue := Fin 1000100;
            trade_pnls := map Fin [150; -50] |})
  = snd (generate_performance_report
           {| startingcash := Fin 1000000; getvalue := Fin 1000100;
              trade_pnls := map Fin [-50; 150] |}).
Proof.
  exact (proj1 (X24_order_of_trades
                  (Fin 1000000) (Fin 1000000) (Fin 1000100) [150; -50] [-50; 150]
                  (perm_swap (-50) 150 []))).
Defined.
